(** * Fakturoid documentation scraper: the schema inference core

    A shallow embedding of [src/main.py] (the Apify actor that scrapes the
    Fakturoid V3 API reference into an OpenAPI component map) together with
    the properties of its table parser, type resolver, name derivation and
    registry aggregation.

    Conventions of the embedding:
    - A Python [str] is the [string] of its UTF-8 bytes: the two-byte
      string 194, 160 is the one character U+00A0.  Replacing a hyphen or
      an underscore, stripping ['#'], joining, comparing and testing for
      the empty string act on these bytes as they act on the characters.
    - [str.split()] is modelled in full: it cuts on every character for
      which [str.isspace] holds, the ten ASCII ones and the nineteen
      others ([PyStr.whitespace]).
    - [str.lower()] and [str.capitalize()] apply the case mapping of the
      Unicode database, which is not part of the program: they are the
      operations [str_lower] and [str_capitalize] of the class [Builtins],
      and every definition and theorem that depends on them holds for
      whatever these two builtins compute.  Where a statement needs their
      value on ASCII text, it assumes [ascii_case_mapping]: on ASCII text
      they are the ASCII case mapping.  The instance [ascii_builtins] is
      that mapping; it serves to run the definitions on ASCII samples.
    - The markup tree handed over by Beautiful Soup is the inductive type
      [Bs4.node]: tags and text nodes (comments and other special strings
      are left out); the accessors used by the program ([.children],
      [.code], [.strings], [.string], [.get_text()], [.find_all]) are
      functions on it.
    - Python exceptions are the values of [exn]; a computation that may
      raise returns a [result].  Calls to [Actor.log] are recorded in an
      explicit log carried by the monad [M]. *)

From Stdlib Require Import Ascii String List NArith Lia.
From stdpp Require Import base option gmap strings list fin_maps.
Import ListNotations.

Set Warnings "-register-all".

Open Scope string_scope.
Open Scope list_scope.

(** ** Exceptions and results *)

Inductive exn : Type :=
  | IndexError
  | ValueError
  | AttributeError
  | KeyError
  | AssertionError.

Inductive result (A : Type) : Type :=
  | OK (a : A)
  | Raise (e : exn).

Arguments OK {A} a.
Arguments Raise {A} e.

Definition returns {A : Type} (r : result A) : Prop :=
  match r with OK _ => True | Raise _ => False end.

(** ** Python string methods *)

Module PyStr.

Fixpoint map_chars (f : ascii -> ascii) (s : string) : string :=
  match s with
  | EmptyString => EmptyString
  | String c r => String (f c) (map_chars f r)
  end.

(** [s.replace(old, new)] for one-character ASCII [old] and [new]. *)
Definition replace (old new : ascii) (s : string) : string :=
  map_chars (fun c => if Ascii.eqb c old then new else c) s.

(** [''.join(l)] *)
Definition join (l : list string) : string :=
  fold_right String.append EmptyString l.

(** [s.lstrip(c)] for a one-character ASCII set. *)
Fixpoint lstrip (c : ascii) (s : string) : string :=
  match s with
  | EmptyString => EmptyString
  | String d r => if Ascii.eqb d c then lstrip c r else s
  end.

(** Truthiness of a [str]. *)
Definition truthy (s : string) : bool :=
  match s with EmptyString => false | _ => true end.

(** The string made of the given bytes. *)
Definition of_bytes (l : list N) : string :=
  fold_right (fun n s => String (ascii_of_N n) s) EmptyString l.

(** The characters for which [str.isspace] holds, in UTF-8: U+0009 to
    U+000D, U+001C to U+0020, U+0085, U+00A0, U+1680, U+2000 to U+200A,
    U+2028, U+2029, U+202F, U+205F and U+3000. *)
Definition whitespace : list string :=
  Eval cbv in
    map of_bytes
      [ [9]; [10]; [11]; [12]; [13]; [28]; [29]; [30]; [31]; [32];
        [194; 133]; [194; 160]; [225; 154; 128];
        [226; 128; 128]; [226; 128; 129]; [226; 128; 130]; [226; 128; 131];
        [226; 128; 132]; [226; 128; 133]; [226; 128; 134]; [226; 128; 135];
        [226; 128; 136]; [226; 128; 137]; [226; 128; 138];
        [226; 128; 168]; [226; 128; 169]; [226; 128; 175];
        [226; 129; 159]; [227; 128; 128] ]%N.

(** [s.startswith(p)] *)
Fixpoint starts_with (p s : string) : bool :=
  match p with
  | EmptyString => true
  | String a p' =>
      match s with
      | EmptyString => false
      | String c s' => Ascii.eqb a c && starts_with p' s'
      end
  end.

(** The whitespace character that [s] starts with, if any. *)
Definition space_at (s : string) : option string :=
  List.find (fun ws => starts_with ws s) whitespace.

(** What [split] emits for the piece being read when a whitespace
    character or the end of the input is met. *)
Definition flush (cur : string) : list string :=
  match cur with EmptyString => [] | _ => [cur] end.

(** [s.split()] with no argument: maximal runs of characters that are
    not whitespace, no empty pieces.  [cur] is the piece being read and
    [skip] the number of bytes left of the whitespace character being
    passed over. *)
Fixpoint split_from (skip : nat) (cur : string) (s : string) : list string :=
  match s with
  | EmptyString => flush cur
  | String c r =>
      match skip with
      | S k => split_from k cur r
      | O =>
          match space_at s with
          | Some ws =>
              flush cur ++ split_from (String.length ws - 1) EmptyString r
          | None => split_from 0 (cur +:+ String c EmptyString) r
          end
      end
  end.

Definition split (s : string) : list string := split_from 0 EmptyString s.

(** The ASCII case mapping: what [str.lower()] and [str.capitalize()]
    compute on ASCII text. *)
Definition lower_char (c : ascii) : ascii :=
  let n := N_of_ascii c in
  if ((65 <=? n) && (n <=? 90))%N then ascii_of_N (n + 32) else c.

Definition upper_char (c : ascii) : ascii :=
  let n := N_of_ascii c in
  if ((97 <=? n) && (n <=? 122))%N then ascii_of_N (n - 32) else c.

Definition ascii_lower (s : string) : string := map_chars lower_char s.

Definition ascii_capitalize (s : string) : string :=
  match s with
  | EmptyString => EmptyString
  | String c r => String (upper_char c) (ascii_lower r)
  end.

(** [s.isascii()] *)
Fixpoint is_ascii (s : string) : bool :=
  match s with
  | EmptyString => true
  | String c r => (N_of_ascii c <? 128)%N && is_ascii r
  end.

End PyStr.

(** ** The case-mapping builtins *)

(** [s.lower()] and [s.capitalize()]. *)
Class Builtins : Type := {
  str_lower : string -> string;
  str_capitalize : string -> string
}.

(** The builtins on ASCII text. *)
#[export] Instance ascii_builtins : Builtins :=
  {| str_lower := PyStr.ascii_lower;
     str_capitalize := PyStr.ascii_capitalize |}.

(** ** [to_camel_case] (main.py, lines 22-27) *)

Section CamelCaseDef.

Context {builtins : Builtins}.

Definition to_camel_case (text : string) : result string :=
  let s := PyStr.replace "_" " " (PyStr.replace "-" " " text) in
  let s := PyStr.split s in
  if Nat.eqb (String.length text) 0 then OK text
  else
    match s with
    | [] => Raise IndexError
    | s0 :: rest => OK (s0 +:+ PyStr.join (map str_capitalize rest))
    end.

(** On ASCII text the two builtins are the ASCII case mapping. *)
Definition ascii_case_mapping : Prop :=
  forall w, PyStr.is_ascii w = true ->
    str_lower w = PyStr.ascii_lower w /\
    str_capitalize w = PyStr.ascii_capitalize w.

End CamelCaseDef.

(** ** The markup tree (Beautiful Soup) *)

Module Bs4.

(** A page element is either a text node or a tag with its attribute
    dictionary and its contents in document order. *)
Inductive node : Type :=
  | NavigableString (s : string)
  | Tag (name : string) (attrs : list (string * string)) (contents : list node).

(** [tag.children] *)
Definition children (n : node) : list node :=
  match n with
  | NavigableString _ => []
  | Tag _ _ cs => cs
  end.

(** [tag.descendants]: every element below [n], in document order. *)
Fixpoint descendants (n : node) : list node :=
  match n with
  | NavigableString _ => []
  | Tag _ _ cs => flat_map (fun c => c :: descendants c) cs
  end.

(** Truthiness of [element.name]: text nodes have no name. *)
Definition has_name (n : node) : bool :=
  match n with
  | NavigableString _ => false
  | Tag nm _ _ => PyStr.truthy nm
  end.

Definition named (nm : string) (n : node) : bool :=
  match n with
  | NavigableString _ => false
  | Tag nm' _ _ => String.eqb nm' nm
  end.

(** [tag.find(nm)], also written [tag.nm]: the first descendant tag
    called [nm], or [None]. *)
Definition find (nm : string) (n : node) : option node :=
  List.find (named nm) (descendants n).

(** [tag.find_all(nm)] *)
Definition find_all (nm : string) (n : node) : list node :=
  List.filter (named nm) (descendants n).

Definition text_of (n : node) : option string :=
  match n with
  | NavigableString s => Some s
  | Tag _ _ _ => None
  end.

(** [list(tag.strings)]: the text nodes below [n], in document order. *)
Definition strings (n : node) : list string :=
  omap text_of (descendants n).

(** [tag.string]: the single text node of [n], looked for through
    chains of only children; [None] when some level has not exactly one
    child. *)
Fixpoint string_ (n : node) : option string :=
  match n with
  | NavigableString s => Some s
  | Tag _ _ [c] => string_ c
  | Tag _ _ _ => None
  end.

(** [tag.get_text()] *)
Definition get_text (n : node) : string := PyStr.join (strings n).

(** [tag.attrs] *)
Definition attrs (n : node) : list (string * string) :=
  match n with
  | NavigableString _ => []
  | Tag _ a _ => a
  end.

(** [d.get(key)] on an attribute dictionary. *)
Fixpoint get (d : list (string * string)) (key : string) : option string :=
  match d with
  | [] => None
  | (k, v) :: r => if String.eqb k key then Some v else get r key
  end.

End Bs4.

(** ** Effects: exceptions and the actor log *)

Inductive log_arg : Type :=
  | ArgStr (s : string)
  | ArgTag (t : Bs4.node).

(** One call of [Actor.log.info] or [Actor.log.error].  The message of the
    call is [prefix] followed by the rendering of [arg]. *)
Inductive log_record : Type :=
  | LogInfo (prefix : string) (arg : log_arg)
  | LogError (prefix : string) (arg : log_arg).

(** State and exception monad: the state survives a raise, as the Python
    objects mutated before an exception do. *)
Definition ST (S A : Type) : Type := S -> result A * S.

Definition ret {S A : Type} (a : A) : ST S A := fun s => (OK a, s).

Definition raise {S A : Type} (e : exn) : ST S A := fun s => (Raise e, s).

Definition bind {S A B : Type} (m : ST S A) (k : A -> ST S B) : ST S B :=
  fun s =>
    match m s with
    | (OK a, s') => k a s'
    | (Raise e, s') => (Raise e, s')
    end.

Notation "'let*' x ':=' m 'in' k" := (bind m (fun x => k))
  (at level 10, x pattern, m at level 100, k at level 200).

Definition lift {S A : Type} (r : result A) : ST S A := fun s => (r, s).

(** [for x in xs: body] over a loop-carried value. *)
Fixpoint for_each {S A X : Type} (body : X -> A -> ST S A) (xs : list X) (a : A)
  : ST S A :=
  match xs with
  | [] => ret a
  | x :: r => let* a' := body x a in for_each body r a'
  end.

(** Computations of the parser: the state is the log. *)
Definition M (A : Type) : Type := ST (list log_record) A.

Definition log_info (prefix : string) (arg : log_arg) : M unit :=
  fun l => (OK tt, l ++ [LogInfo prefix arg]).

Definition log_error (prefix : string) (arg : log_arg) : M unit :=
  fun l => (OK tt, l ++ [LogError prefix arg]).

(** Attribute access on a value that may be [None]. *)
Definition getattr {S A : Type} (o : option A) : ST S A :=
  match o with
  | Some a => ret a
  | None => raise AttributeError
  end.

(** [d[key]] *)
Definition getitem {S : Type} (d : list (string * string)) (key : string)
  : ST S string :=
  match Bs4.get d key with
  | Some v => ret v
  | None => raise KeyError
  end.

(** ** Schemas *)

(** One entry of [properties].  [prop_type] is the value under ["type"]
    ([None] is Python's [None]); [prop_items] and [prop_format] are [None]
    when the entry has no ["items"], respectively no ["format"], key;
    [prop_items = Some r] stands for the dictionary with the single key
    ["$ref"] bound to [r]. *)
Record PropertySchema : Type := mkProperty {
  prop_type : option string;
  prop_description : string;
  prop_items : option string;
  prop_format : option string
}.

(** The [schema_dict] of [parse_page]; [required = None] when the key is
    not written.  A property name is [attribute_td.code.string], which may
    be Python's [None]: the keys are [option string]. *)
Record ObjectSchema : Type := mkObject {
  obj_type : string;
  properties : gmap (option string) PropertySchema;
  required : option (list (option string))
}.

(** ** [SIMPLE_TYPES] (lines 72-80) *)

Definition SIMPLE_TYPES : gmap string (string * option string) :=
  list_to_map
    [ ("String", ("string", None));
      ("Integer", ("integer", None));
      ("Boolean", ("boolean", None));
      ("DateTime", ("string", Some "date-time"));
      ("Datetime", ("string", Some "date-time"));
      ("Date", ("string", Some "date"));
      ("Decimal", ("number", Some "decimal")) ].

Arguments SIMPLE_TYPES : simpl never.

(** ** [dereference] (lines 83-86) *)

Definition dereference (object_name : string) : M string :=
  let* _ := log_info "Dereferencing " (ArgStr object_name) in
  ret (PyStr.lstrip "#" object_name).

Section ProgramDefs.

Context {builtins : Builtins}.

(** ** [parse_attributes_table] (lines 89-134) *)

(** Lines 104-122: the classification of the type cell.  The result is
    the triple [(prop_type, items, prop_format)] of the local variables
    after the [if]; [items = None] is the empty list they start from. *)
Definition resolve_type (type_td : Bs4.node)
  : M (option string * option string * option string) :=
  let* code := getattr (Bs4.find "code" type_td) in
  let soup_type_strings := Bs4.strings code in
  if Nat.eqb (List.length soup_type_strings) 3
     && bool_decide (soup_type_strings = ["Array["; "Object"; "]"])
  then
    let* a := getattr (Bs4.find "a" code) in
    let* href := getitem (Bs4.attrs a) "href" in
    let* prop_obj_type := dereference href in
    ret (Some "array", Some ("#/components/schemas/" +:+ prop_obj_type), None)
  else
    match soup_type_strings with
    | [tok] =>
        match SIMPLE_TYPES !! tok with
        | None =>
            let* _ := log_error "Unknow type " (ArgStr tok) in
            ret (Some "string", None, Some (str_lower tok))
        | Some (ty, fmt) => ret (Some ty, None, fmt)
        end
    | _ =>
        let* _ := log_error "Couldn't make sense of " (ArgTag type_td) in
        ret (None, None, None)
    end.

(** Lines 99-102: the visibility cell.  Returns [readonly] and whether the
    row is flagged required. *)
Definition visibility (vis_td : Bs4.node) : result (bool * bool) :=
  match Bs4.find "div" vis_td with
  | Some div =>
      match Bs4.get (Bs4.attrs div) "title" with
      | Some title =>
          let readonly := String.eqb title "Read-only attribute" in
          OK (readonly, String.eqb title "Required attribute")
      | None => Raise KeyError
      end
  | None => OK (false, false)
  end.

(** Truthiness test of line 130 on [prop_format]. *)
Definition format_key (prop_format : option string) : option string :=
  match prop_format with
  | Some f => if PyStr.truthy f then Some f else None
  | None => None
  end.

(** The loop-carried locals [properties] and [required]. *)
Record table_state : Type := mkState {
  st_properties : gmap (option string) PropertySchema;
  st_required : list (option string)
}.

(** Lines 95-131: the body of the loop over the rows. *)
Definition parse_row (tr : Bs4.node) (st : table_state) : M table_state :=
  let row_items := List.filter Bs4.has_name (Bs4.children tr) in
  match row_items with
  | [vis_td; attribute_td; type_td; desc_td] =>
      let* name_code := getattr (Bs4.find "code" attribute_td) in
      let prop_name := Bs4.string_ name_code in
      let* (readonly, is_required) := lift (visibility vis_td) in
      let required :=
        if is_required then st_required st ++ [prop_name] else st_required st in
      let* (prop_type, items, prop_format) := resolve_type type_td in
      let entry :=
        {| prop_type := prop_type;
           prop_description := Bs4.get_text desc_td;
           prop_items := items;
           prop_format := format_key prop_format |} in
      ret {| st_properties := <[prop_name := entry]> (st_properties st);
             st_required := required |}
  | _ => raise ValueError
  end.

Definition parse_attributes_table (table : Bs4.node)
  : M (gmap (option string) PropertySchema * list (option string)) :=
  let* tbody := getattr (Bs4.find "tbody" table) in
  let* st := for_each parse_row (Bs4.find_all "tr" tbody)
               {| st_properties := ∅; st_required := [] |} in
  ret (st_properties st, st_required st).

(** ** [parse_page], from the located heading text and table on
    (lines 54-69) *)

(** The [schemas] dictionary of one page, as its [items()]. *)
Definition parse_page_schemas (group_name : string) (attribs_table : Bs4.node)
  : M (list (string * ObjectSchema)) :=
  let* (properties, required) := parse_attributes_table attribs_table in
  let* name := lift (to_camel_case group_name) in
  (* [schema_dict] is stored in [schemas] before the [required] key is
     written to it; both names denote one object, so the key is part of
     the returned schema. *)
  let schema_dict :=
    {| obj_type := "object";
       properties := properties;
       required := match required with [] => None | _ => Some required end |} in
  ret [(name +:+ ".Attributes", schema_dict)].

(** ** Registry aggregation (lines 199-205) *)

(** Lines 204-205, on the dictionary [openapi_components["schemas"]]. *)
Definition insert_schema (entry : string * ObjectSchema)
  : ST (gmap string ObjectSchema) unit :=
  fun reg =>
    let '(cls_name, definition) := entry in
    match reg !! cls_name with
    | Some _ => (Raise AssertionError, reg)
    | None => (OK tt, <[cls_name := definition]> reg)
    end.

(** Lines 202-205 for the outcome of one [parse_page] call: [None] is a
    page without an attributes section. *)
Definition aggregate_page (schemas : option (list (string * ObjectSchema)))
  : ST (gmap string ObjectSchema) unit :=
  match schemas with
  | Some ((_ :: _) as its) => for_each (fun it _ => insert_schema it) its tt
  | _ => ret tt
  end.

(** The loop of line 199 over the outcomes of the pages, in order. *)
Definition aggregate (pages : list (option (list (string * ObjectSchema))))
  : ST (gmap string ObjectSchema) unit :=
  for_each (fun pg _ => aggregate_page pg) pages tt.

(** ** The pushed document (lines 157-188, 207) *)

(** Python values as they are handed to [Actor.push_data]: [None],
    strings, lists and dictionaries (as their items, in key order of
    insertion). *)
Inductive value : Type :=
  | VNone
  | VStr (s : string)
  | VList (l : list value)
  | VDict (d : list (value * value)).

Definition is_list (v : value) : bool :=
  match v with VList _ => true | _ => false end.

Definition is_dict (v : value) : bool :=
  match v with VDict _ => true | _ => false end.

(** [d.get(key)] for a string key. *)
Fixpoint dict_get (d : list (value * value)) (key : string) : option value :=
  match d with
  | [] => None
  | (VStr k, v) :: r => if String.eqb k key then Some v else dict_get r key
  | _ :: r => dict_get r key
  end.

Definition member (v : value) (key : string) : option value :=
  match v with
  | VDict d => dict_get d key
  | _ => None
  end.

Definition keys (v : value) : list value :=
  match v with
  | VDict d => map fst d
  | _ => []
  end.

Definition value_of_option (o : option string) : value :=
  match o with
  | Some s => VStr s
  | None => VNone
  end.

Definition value_of_property (p : PropertySchema) : value :=
  VDict
    ([ (VStr "type", value_of_option (prop_type p));
       (VStr "description", VStr (prop_description p)) ]
     ++ match prop_items p with
        | Some r => [ (VStr "items", VDict [ (VStr "$ref", VStr r) ]) ]
        | None => []
        end
     ++ match prop_format p with
        | Some f => [ (VStr "format", VStr f) ]
        | None => []
        end).

Definition value_of_object (o : ObjectSchema) : value :=
  VDict
    ([ (VStr "type", VStr (obj_type o));
       (VStr "properties",
        VDict (map (fun kv => (value_of_option kv.1, value_of_property kv.2))
                 (map_to_list (properties o)))) ]
     ++ match required o with
        | Some r => [ (VStr "required", VList (map value_of_option r)) ]
        | None => []
        end).

Definition value_of_registry (schemas : gmap string ObjectSchema) : value :=
  VDict (map (fun kv => (VStr kv.1, value_of_object kv.2)) (map_to_list schemas)).

Definition openapi_info : value :=
  VDict
    [ (VStr "title", VStr "Webscraped Fakturoid V3 API");
      (VStr "description", VStr "This is websraped definition of Fakturoid.");
      (VStr "contact",
       VDict [ (VStr "name", VStr "Jaroslav Henner");
               (VStr "url", VStr "https://github.com/jarovo/fakturoid-api/") ]);
      (VStr "license",
       VDict [ (VStr "name",
                VStr "Webscraped Fakturoid API V3 © 2025 by Jaroslav Henner is licensed under CC BY-SA 4.0. To view a copy of this license, visit https://creativecommons.org/licenses/by-sa/4.0/");
               (VStr "url", VStr "https://creativecommons.org/licenses/by-sa/4.0/") ]);
      (VStr "version", VStr "3.0.0-draft") ].

(** The dictionary [openapi] once the registry holds [schemas]. *)
Definition openapi (schemas : gmap string ObjectSchema) : value :=
  VDict
    [ (VStr "openapi", VStr "3.0.4");
      (VStr "info", openapi_info);
      (VStr "servers",
       VDict [ (VStr "url", VStr "https://app.fakturoid.cz/api/v3");
               (VStr "description", VStr "Production Fakturoid server") ]);
      (VStr "externalDoc",
       VDict [ (VStr "description", VStr "Published documentation");
               (VStr "url", VStr "https://www.fakturoid.cz/api/v3") ]);
      (VStr "components", VDict [ (VStr "schemas", value_of_registry schemas) ]) ].

(** The run from the page outcomes on: the registry starts empty, and the
    document is pushed only when the loop over the pages ends normally. *)
Definition main (pages : list (option (list (string * ObjectSchema))))
  : result value * gmap string ObjectSchema :=
  match aggregate pages ∅ with
  | (OK _, reg) => (OK (openapi reg), reg)
  | (Raise e, reg) => (Raise e, reg)
  end.

(** ** Vocabulary of the statements about rows *)

(** [row_items], and the attribute-name cell [row_items[1]] when the row
    has one. *)
Definition row_items (tr : Bs4.node) : list Bs4.node :=
  List.filter Bs4.has_name (Bs4.children tr).

Definition attribute_cell (tr : Bs4.node) : option Bs4.node :=
  nth_error (row_items tr) 1.

(** The locals after a row that defined [entry] under [prop_name]. *)
Definition row_done (st : table_state) (prop_name : option string)
    (is_required : bool) (entry : PropertySchema) : table_state :=
  {| st_properties := <[prop_name := entry]> (st_properties st);
     st_required :=
       if is_required then st_required st ++ [prop_name] else st_required st |}.

(** ** Sample markup *)

Definition td (contents : list Bs4.node) : Bs4.node := Bs4.Tag "td" [] contents.

Definition code (contents : list Bs4.node) : Bs4.node :=
  Bs4.Tag "code" [] contents.

Definition text (s : string) : Bs4.node := Bs4.NavigableString s.

Definition required_marker : Bs4.node :=
  Bs4.Tag "div" [("title", "Required attribute")] [].

(** A row as the documentation pages have it, with the whitespace text
    nodes between the cells. *)
Definition sample_tr (vis : list Bs4.node) (name : list Bs4.node)
    (ty : list Bs4.node) (desc : string) : Bs4.node :=
  Bs4.Tag "tr" []
    [ text " "; td vis; text " "; td name; text " "; td [code ty]; text " ";
      td [text desc]; text " " ].

Definition sample_table (rows : list Bs4.node) : Bs4.node :=
  Bs4.Tag "table" [] [Bs4.Tag "tbody" [] rows].

Definition id_row : Bs4.node :=
  sample_tr [required_marker] [code [text "id"]] [text "Integer"] "The id".

Definition lines_row : Bs4.node :=
  sample_tr [] [code [text "lines"]]
    [ text "Array[";
      Bs4.Tag "a" [("href", "#Line")] [text "Object"];
      text "]" ]
    "Invoice lines".

Definition money_row : Bs4.node :=
  sample_tr [] [code [text "total"]] [text "Money"] "Total".

Definition odd_row : Bs4.node :=
  sample_tr [] [code [text "tags"]] [text "Array["; text "String"] "Tags".

(** A row whose attribute-name cell holds plain text, no code span. *)
Definition nameless_row : Bs4.node :=
  sample_tr [] [text "note"] [text "String"] "A note".

(** The schema of an object with one required string property. *)
Definition sample_object (name : string) : ObjectSchema :=
  {| obj_type := "object";
     properties :=
       {[ Some name :=
            {| prop_type := Some "string"; prop_description := name;
               prop_items := None; prop_format := None |} ]};
     required := Some [Some name] |}.

(** ** Vocabulary of the statements about strings *)

Fixpoint all_chars (p : ascii -> bool) (s : string) : bool :=
  match s with
  | EmptyString => true
  | String c r => p c && all_chars p r
  end.

(** The three separators named by the naming rule. *)
Definition is_separator (c : ascii) : bool :=
  Ascii.eqb c " " || Ascii.eqb c "-" || Ascii.eqb c "_".

(** Hyphen and underscore. *)
Definition is_mark (c : ascii) : bool := Ascii.eqb c "-" || Ascii.eqb c "_".

Definition normalize (text : string) : string :=
  PyStr.replace "_" " " (PyStr.replace "-" " " text).

(** One of [ws] and [b] is the start of the other. *)
Definition comparable (ws b : string) : bool :=
  PyStr.starts_with ws b || PyStr.starts_with b ws.

(** No whitespace character starts [b] or is started by [b]. *)
Definition starts_clean (b : string) : bool :=
  forallb (fun ws => negb (comparable ws b)) PyStr.whitespace.

(** [w] holds no hyphen, no underscore and no whitespace character, and
    does not end inside the encoding of one: every text made of whole
    characters other than these passes the test. *)
Fixpoint break_free (w : string) : bool :=
  match w with
  | EmptyString => true
  | String c r => negb (is_mark c) && starts_clean w && break_free r
  end.

(** [s], after the [skip] bytes that end a whitespace character, is a
    sequence of whitespace characters, hyphens and underscores. *)
Fixpoint only_breaks (skip : nat) (s : string) : bool :=
  match s with
  | EmptyString => true
  | String c r =>
      match skip with
      | S k => only_breaks k r
      | O =>
          if is_mark c then only_breaks 0 r
          else
            match PyStr.space_at s with
            | Some ws => only_breaks (String.length ws - 1) r
            | None => false
            end
      end
  end.

(** [text] holds nothing but the characters [to_camel_case] cuts on:
    hyphens, underscores and whitespace characters. *)
Definition all_breaks (text : string) : bool := only_breaks 0 text.

(** [lead w1 s1 w2 ... sn wn trail], for [tail = [(s1, w2); ...]]. *)
Definition phrase (lead w1 : string) (tail : list (string * string))
    (trail : string) : string :=
  lead +:+ w1 +:+ PyStr.join (map (fun sw => sw.1 +:+ sw.2) tail) +:+ trail.

Definition is_word (w : string) : bool := PyStr.truthy w && break_free w.

Definition is_gap (s : string) : bool :=
  PyStr.truthy s && all_chars is_separator s.

(** The non-breaking space U+00A0. *)
Definition nbsp : string := PyStr.of_bytes [194; 160]%N.

(** ** Vocabulary of the statements about ASCII names *)

(** The ASCII whitespace characters. *)
Definition ascii_space (c : ascii) : bool :=
  let n := N_of_ascii c in
  ((9 <=? n) && (n <=? 13) || (28 <=? n) && (n <=? 32))%N.

(** An ASCII character that is neither whitespace nor a hyphen nor an
    underscore. *)
Definition is_plain (c : ascii) : bool :=
  (N_of_ascii c <? 128)%N && negb (ascii_space c) && negb (is_mark c).

(** ** Vocabulary of the statements about references *)

(** [k] fragment markers in a row. *)
Fixpoint markers (k : nat) : string :=
  match k with
  | O => EmptyString
  | S k' => String "#" (markers k')
  end.

Definition starts_with_marker (s : string) : bool :=
  match s with
  | String c _ => Ascii.eqb c "#"
  | EmptyString => false
  end.

(** ** Vocabulary of the statements about tables *)

(** The name and the required flag a row contributes when it returns. *)
Definition row_name (tr : Bs4.node) : option string :=
  match row_items tr with
  | [_; attribute_td; _; _] =>
      match Bs4.find "code" attribute_td with
      | Some name_code => Bs4.string_ name_code
      | None => None
      end
  | _ => None
  end.

Definition row_required (tr : Bs4.node) : bool :=
  match row_items tr with
  | [vis_td; _; _; _] =>
      match visibility vis_td with
      | OK (_, is_required) => is_required
      | Raise _ => false
      end
  | _ => false
  end.

(** The property entry a row writes, read off a run of [parse_row] from
    empty locals; [None] when the row raises. *)
Definition row_entry (tr : Bs4.node) : option PropertySchema :=
  match parse_row tr {| st_properties := ∅; st_required := [] |} [] with
  | (OK st, _) => st_properties st !! row_name tr
  | (Raise _, _) => None
  end.

(** The shape of an entry: a null type carries neither items nor format;
    an array carries a reference into the components and no format; any
    other type is one of the four scalar names, carries no items, and its
    format, when written, is not empty. *)
Definition well_formed_entry (e : PropertySchema) : Prop :=
  match prop_type e with
  | None => prop_items e = None /\ prop_format e = None
  | Some ty =>
      if String.eqb ty "array" then
        (exists r, prop_items e = Some ("#/components/schemas/" +:+ r)
                   /\ starts_with_marker r = false)
        /\ prop_format e = None
      else
        In ty ["string"; "integer"; "boolean"; "number"]
        /\ prop_items e = None
        /\ forall f, prop_format e = Some f -> f <> EmptyString
  end.

(** The element reached from [n] by the child indices [p]. *)
Fixpoint subtree (n : Bs4.node) (p : list nat) : option Bs4.node :=
  match p with
  | [] => Some n
  | i :: q =>
      match nth_error (Bs4.children n) i with
      | Some c => subtree c q
      | None => None
      end
  end.

(** The locals after the rows [rows], each adding its entry. *)
Definition rows_done (st : table_state) (rows : list Bs4.node) : table_state :=
  foldl
    (fun st tr =>
       match row_entry tr with
       | Some e => row_done st (row_name tr) (row_required tr) e
       | None => st
       end)
    st rows.

Definition row_returns (tr : Bs4.node) : Prop :=
  exists e,
    row_entry tr = Some e /\ well_formed_entry e
    /\ List.length (row_items tr) = 4.

Definition no_locals : table_state :=
  {| st_properties := ∅; st_required := [] |}.

(** ** More sample markup *)

Definition readonly_marker : Bs4.node :=
  Bs4.Tag "div" [("title", "Read-only attribute")] [].

(** [money_row] flagged read-only. *)
Definition readonly_money_row : Bs4.node :=
  sample_tr [readonly_marker] [code [text "total"]] [text "Money"] "Total".

(** The array pattern spelled without a hyperlink. *)
Definition unlinked_row : Bs4.node :=
  sample_tr [] [code [text "tags"]]
    [ text "Array["; Bs4.Tag "b" [] [text "Object"]; text "]" ]
    "Tags".

(** A second row for the name ["id"], with another type. *)
Definition id_again_row : Bs4.node :=
  sample_tr [required_marker] [code [text "id"]] [text "String"] "The id, again".

(** A row whose description holds a table of its own, with a two-cell
    row. *)
Definition nesting_row : Bs4.node :=
  Bs4.Tag "tr" []
    [ td []; td [code [text "vat"]]; td [code [text "Decimal"]];
      td [ sample_table
             [ Bs4.Tag "tr" [] [td [text "rate"]; td [text "21"]] ] ] ].


(** The property map and the required list of a table that parses from an
    empty log; empty when the parser raises. *)
Definition table_properties (table : Bs4.node)
  : gmap (option string) PropertySchema :=
  match (parse_attributes_table table []).1 with
  | OK (props, _) => props
  | Raise _ => ∅
  end.

Definition table_required (table : Bs4.node) : list (option string) :=
  match (parse_attributes_table table []).1 with
  | OK (_, req) => req
  | Raise _ => []
  end.

Definition all_rows : list Bs4.node :=
  [id_row; lines_row; money_row; odd_row; id_again_row].

Definition all_rows_table : Bs4.node := sample_table all_rows.

Definition nesting_table : Bs4.node := sample_table [id_row; nesting_row].

(** ** Vocabulary of the statements about runs *)

(** The [(name, schema)] pairs the pages bring, in the order the loop
    meets them. *)
Definition page_entries (pages : list (option (list (string * ObjectSchema))))
  : list (string * ObjectSchema) :=
  flat_map (fun schemas => default [] schemas) pages.

(** [doc["components"]["schemas"][name]] *)
Definition schema_in (doc : value) (name : string) : option value :=
  c ← member doc "components"; s ← member c "schemas"; member s name.

Definition sample_pages : list (option (list (string * ObjectSchema))) :=
  [ Some [("invoice.Attributes", sample_object "id")];
    None;
    Some [("expense.Attributes", sample_object "number")];
    Some [("subject.Attributes", sample_object "name")] ].

End ProgramDefs.

(** ** [parse_page] (lines 29-69) *)

(** An element of a page is named by the child indices that lead to it
    from the root of the tree, so that its parent and its siblings can be
    reached. *)
Module Nav.

(** The first element of [cs], in document order, that passes [pred]
    or holds such an element, [rec] searching below one element; [i] is
    the index of the head of [cs]. *)
Definition first_in (pred : Bs4.node -> bool)
    (rec : Bs4.node -> option (list nat))
  : list Bs4.node -> nat -> option (list nat) :=
  fix go (cs : list Bs4.node) (i : nat) : option (list nat) :=
    match cs with
    | [] => None
    | c :: r =>
        if pred c then Some [i]
        else
          match rec c with
          | Some q => Some (i :: q)
          | None => go r (S i)
          end
    end.

(** [tag.find(...)] with a test on the attributes: the path of the first
    descendant tag, in document order, that passes [pred]. *)
Fixpoint find_path (pred : Bs4.node -> bool) (n : Bs4.node)
  : option (list nat) :=
  match n with
  | Bs4.NavigableString _ => None
  | Bs4.Tag _ _ cs => first_in pred (find_path pred) cs 0
  end.

(** [class_=c], for a class name [c] without whitespace: [c] is one of
    the whitespace-separated values of the [class] attribute. *)
Definition has_class (c : string) (n : Bs4.node) : bool :=
  match n with
  | Bs4.NavigableString _ => false
  | Bs4.Tag _ a _ =>
      match Bs4.get a "class" with
      | Some v => bool_decide (c ∈ PyStr.split v)
      | None => false
      end
  end.

(** [id=i] *)
Definition has_id (i : string) (n : Bs4.node) : bool :=
  match n with
  | Bs4.NavigableString _ => false
  | Bs4.Tag _ a _ =>
      match Bs4.get a "id" with
      | Some v => String.eqb v i
      | None => false
      end
  end.

(** The siblings that follow the element at [p], with the index of the
    first of them. *)
Definition next_siblings (root : Bs4.node) (p : list nat)
  : nat * list Bs4.node :=
  match p with
  | [] => (0, [])
  | _ =>
      match subtree root (List.removelast p) with
      | Some parent =>
          (S (List.last p 0), drop (S (List.last p 0)) (Bs4.children parent))
      | None => (0, [])
      end
  end.

Fixpoint index_from (pred : Bs4.node -> bool) (l : list Bs4.node) (i : nat)
  : option nat :=
  match l with
  | [] => None
  | c :: r => if pred c then Some i else index_from pred r (S i)
  end.

(** [tag.find_next_sibling(nm)] *)
Definition find_next_sibling (nm : string) (root : Bs4.node) (p : list nat)
  : option (list nat) :=
  let '(first, following) := next_siblings root p in
  match index_from (Bs4.named nm) following first with
  | Some j => Some (List.removelast p ++ [j])
  | None => None
  end.

(** [tag.find_next_siblings(nm)] *)
Definition find_next_siblings (nm : string) (root : Bs4.node) (p : list nat)
  : list Bs4.node :=
  List.filter (Bs4.named nm) (next_siblings root p).2.

End Nav.

Section PageDefs.

Context {builtins : Builtins}.

(** The log of a page: the records of the row parser, and the record
    that lists the request headings, whose argument is a list of tags. *)
Inductive page_log : Type :=
  | Rec (r : log_record)
  | InfoTags (prefix : string) (tags : list Bs4.node).

Definition PM (A : Type) : Type := ST (list page_log) A.

(** A computation of the table parser run inside a page: its records are
    appended to the log of the page. *)
Definition in_page {A : Type} (m : M A) : PM A :=
  fun l => let '(r, d) := m [] in (r, l ++ map Rec d).

Definition page_info (prefix : string) (arg : log_arg) : PM unit :=
  fun l => (OK tt, l ++ [Rec (LogInfo prefix arg)]).

Definition page_info_tags (prefix : string) (tags : list Bs4.node) : PM unit :=
  fun l => (OK tt, l ++ [InfoTags prefix tags]).

(** The rendering of a tag or [None] in a message. *)
Definition arg_of (o : option Bs4.node) : log_arg :=
  match o with
  | Some t => ArgTag t
  | None => ArgStr "None"
  end.

(** Lines 43-69: the part of [parse_page] that follows the test on
    [attributes_heading], the element at the path [attributes_heading] of
    [soup].  The result is the items of the [schemas] dictionary. *)
Definition parse_sections (soup : Bs4.node) (group_name : string)
    (attributes_heading : list nat) : PM (list (string * ObjectSchema)) :=
  let* attribs_div :=
    getattr (Nav.find_next_sibling "div" soup attributes_heading) in
  let* attribs_div_tag := getattr (subtree soup attribs_div) in
  let attribs_table := Bs4.find "table" attribs_div_tag in
  let* notes_table_div :=
    getattr (Nav.find_next_sibling "div" soup attribs_div) in
  let subobjects_headings_tags :=
    Nav.find_next_sibling "h3" soup notes_table_div ≫= subtree soup in
  let requests_headings_tags :=
    Nav.find_next_siblings "h2" soup notes_table_div in
  let* _ := page_info "Found subobjects to parse "
              (arg_of subobjects_headings_tags) in
  let* _ := page_info_tags "Found requests to parse "
              requests_headings_tags in
  let* table := getattr attribs_table in
  in_page (parse_page_schemas group_name table).

(** [parse_page] on the tree [soup] that the markup of [url] parses to.
    The result is [None] or the items of the [schemas] dictionary. *)
Definition parse_page (soup : Bs4.node) (url : string)
  : PM (option (list (string * ObjectSchema))) :=
  let* _ := page_info "Sending a request to " (ArgStr url) in
  let api_article_div := Nav.find_path (Nav.has_class "api-article") soup in
  let* article := getattr api_article_div in
  let* parent := getattr (subtree soup (List.removelast article)) in
  let* h1 := getattr (Bs4.find "h1" parent) in
  let group_name := Bs4.get_text h1 in
  let* article_tag := getattr (subtree soup article) in
  match Nav.find_path (Nav.has_id "attributes") article_tag with
  | None => ret None
  | Some heading =>
      let* schemas := parse_sections soup group_name (article ++ heading) in
      ret (Some schemas)
  end.

(** ** The loop over the linked pages (lines 199-205) *)

(** One turn of the loop, for the page at [url] whose markup parses to
    [soup]: the state is the log and the registry. *)
Definition crawl_page (page : string * Bs4.node)
  : ST (list page_log * gmap string ObjectSchema) unit :=
  fun s =>
    match parse_page page.2 page.1 s.1 with
    | (OK schemas, log') =>
        let '(r, reg') := aggregate_page schemas s.2 in (r, (log', reg'))
    | (Raise e, log') => (Raise e, (log', s.2))
    end.

Definition crawl (pages : list (string * Bs4.node))
  : ST (list page_log * gmap string ObjectSchema) unit :=
  for_each (fun pg _ => crawl_page pg) pages tt.

(** ** Vocabulary of the statements about pages *)

(** [api_article_div] and the text of [api_article_div.parent.h1]. *)
Definition article_of (soup : Bs4.node) : option (list nat) :=
  Nav.find_path (Nav.has_class "api-article") soup.

Definition heading_text (soup : Bs4.node) (article : list nat) : option string :=
  parent ← subtree soup (List.removelast article);
  h1 ← Bs4.find "h1" parent;
  Some (Bs4.get_text h1).

(** The path of [attributes_heading], when the article has one. *)
Definition attributes_of (soup : Bs4.node) (article : list nat)
  : option (list nat) :=
  article_tag ← subtree soup article;
  heading ← Nav.find_path (Nav.has_id "attributes") article_tag;
  Some (article ++ heading).

Definition request_record (url : string) : page_log :=
  Rec (LogInfo "Sending a request to " (ArgStr url)).

(** A documentation page: a heading, and an article with the given
    contents. *)
Definition sample_page (title : string) (contents : list Bs4.node) : Bs4.node :=
  Bs4.Tag "[document]" []
    [ Bs4.Tag "html" []
        [ Bs4.Tag "body" []
            [ Bs4.Tag "main" []
                [ text " ";
                  Bs4.Tag "h1" [] [text title];
                  text " ";
                  Bs4.Tag "div" [("class", "api-article prose")] contents ] ] ] ].

Definition attributes_section (rows : list Bs4.node) : list Bs4.node :=
  [ Bs4.Tag "h2" [("id", "attributes")] [text "Attributes"];
    text " ";
    Bs4.Tag "div" [] [sample_table rows];
    text " ";
    Bs4.Tag "div" [] [text "Notes"];
    Bs4.Tag "h3" [] [text "Lines"];
    Bs4.Tag "h2" [] [text "Index"] ].

Definition invoice_page : Bs4.node :=
  sample_page "Invoice" (attributes_section [id_row; money_row]).

Definition expense_page : Bs4.node :=
  sample_page "Expense" (attributes_section [lines_row]).

(** A page of an action endpoint: no attributes section. *)
Definition action_page : Bs4.node :=
  sample_page "Messages" [Bs4.Tag "h2" [] [text "Send"]].

(** A page whose attributes table is the last element of the article. *)
Definition short_page : Bs4.node :=
  sample_page "Todos"
    [ Bs4.Tag "h2" [("id", "attributes")] [text "Attributes"];
      Bs4.Tag "div" [] [sample_table [id_row]] ].

Definition bare_page : Bs4.node :=
  Bs4.Tag "[document]" [] [Bs4.Tag "html" [] [Bs4.Tag "body" [] []]].

(** The dictionary a page gives when it is parsed from an empty log;
    empty when there is none. *)
Definition page_result (soup : Bs4.node) (url : string)
  : list (string * ObjectSchema) :=
  match (parse_page soup url []).1 with
  | OK (Some schemas) => schemas
  | _ => []
  end.

Definition sample_site : list (string * Bs4.node) :=
  [ ("/api/v3/invoices", invoice_page);
    ("/api/v3/messages", action_page);
    ("/api/v3/expenses", expense_page) ].

Definition sample_outcomes : list (option (list (string * ObjectSchema))) :=
  [ Some (page_result invoice_page "/api/v3/invoices");
    None;
    Some (page_result expense_page "/api/v3/expenses") ].

(** The heading text and the attributes table that the navigation of
    [parse_page] reaches, when each of its steps finds its element: the
    article, the [h1] of its parent, the attributes heading, the [div]
    after it, a further [div] after that one, and the table inside the
    first [div]. *)
Definition page_table (soup : Bs4.node) : option (string * Bs4.node) :=
  article ← article_of soup;
  group_name ← heading_text soup article;
  heading ← attributes_of soup article;
  attribs_div ← Nav.find_next_sibling "div" soup heading;
  attribs_div_tag ← subtree soup attribs_div;
  notes_table_div ← Nav.find_next_sibling "div" soup attribs_div;
  table ← Bs4.find "table" attribs_div_tag;
  Some (group_name, table).

(** A row that writes [entry] under [name] and logs [records] stops
    neither its table nor the page.  [table] is the table, [pre] and
    [post] its rows before and after that row: the table parser returns,
    with the records in its log, a key for every other row, and the entry
    under [name] unless a later row has the same name; and on each page
    whose navigation leads to [table] and whose heading has a camel-case
    name, [parse_page] returns the schema with these properties, with the
    records in its log. *)
Definition row_kept (table : Bs4.node) (pre post : list Bs4.node)
    (name : option string) (entry : PropertySchema)
    (records : list log_record) : Prop :=
  exists props req d,
    (forall log,
       parse_attributes_table table log = (OK (props, req), log ++ d)) /\
    (forall r, In r records -> In r d) /\
    (forall other, In other (pre ++ post) ->
                   is_Some (props !! row_name other)) /\
    is_Some (props !! name) /\
    (Forall (fun later => row_name later <> name) post ->
     props !! name = Some entry) /\
    forall soup group_name camel url plog,
      page_table soup = Some (group_name, table) ->
      to_camel_case group_name = OK camel ->
      exists plog',
        parse_page soup url plog
        = (OK (Some [ (camel +:+ ".Attributes",
                       {| obj_type := "object";
                          properties := props;
                          required :=
                            match req with [] => None | _ => Some req end |}) ]),
           plog ++ plog') /\
        forall r, In r records -> In (Rec r) plog'.

Definition money_table : Bs4.node :=
  sample_table [id_row; money_row; lines_row].

Definition odd_table : Bs4.node :=
  sample_table [id_row; odd_row; money_row].

(** Pages whose attributes tables are [money_table] and [odd_table]. *)
Definition money_page : Bs4.node :=
  sample_page "Expense report" (attributes_section [id_row; money_row; lines_row]).

Definition odd_page : Bs4.node :=
  sample_page "tag-list" (attributes_section [id_row; odd_row; money_row]).

End PageDefs.

(** * Properties *)

(** ** Strings *)

Section StringFacts.

Lemma append_cons c (s t : string) : String c s +:+ t = String c (s +:+ t).
Proof. reflexivity. Qed.

Lemma append_nil_l (t : string) : EmptyString +:+ t = t.
Proof. reflexivity. Qed.

Lemma append_nil_r (s : string) : s +:+ EmptyString = s.
Proof. induction s as [|c s IH]; [done|]. by rewrite append_cons, IH. Qed.

Lemma append_assoc (s t u : string) : (s +:+ t) +:+ u = s +:+ t +:+ u.
Proof. induction s as [|c s IH]; [done|]. by rewrite !append_cons, IH. Qed.


Lemma truthy_length (s : string) :
  PyStr.truthy s = true -> Nat.eqb (String.length s) 0 = false.
Proof. by destruct s. Qed.

Lemma map_chars_append f (s t : string) :
  PyStr.map_chars f (s +:+ t) = PyStr.map_chars f s +:+ PyStr.map_chars f t.
Proof.
  induction s as [|c s IH]; [done|].
  rewrite append_cons. simpl. by rewrite IH, append_cons.
Qed.

Lemma normalize_append (s t : string) :
  normalize (s +:+ t) = normalize s +:+ normalize t.
Proof. unfold normalize, PyStr.replace. by rewrite !map_chars_append. Qed.

Lemma normalize_cons c (s : string) :
  normalize (String c s)
  = String (if is_mark c then " "%char else c) (normalize s).
Proof.
  unfold normalize, PyStr.replace, is_mark. simpl. f_equal.
  destruct (Ascii.eqb c "-") eqn:E1; [done|].
  by destruct (Ascii.eqb c "_").
Qed.

Lemma normalize_truthy (s : string) :
  PyStr.truthy (normalize s) = PyStr.truthy s.
Proof. by destruct s. Qed.

Lemma find_ext_in {A : Type} (f g : A -> bool) (l : list A) :
  (forall x, In x l -> f x = g x) -> List.find f l = List.find g l.
Proof.
  induction l as [|x l IH]; intros Hfg; [done|].
  simpl. rewrite (Hfg x) by by left.
  destruct (g x); [done|]. apply IH. intros y Hy. apply Hfg. by right.
Qed.

Lemma find_none_forallb {A : Type} (f : A -> bool) (l : list A) :
  forallb (fun x => negb (f x)) l = true -> List.find f l = None.
Proof.
  induction l as [|x l IH]; [done|].
  simpl. intros Hl. apply andb_true_iff in Hl as [Hx Hl].
  apply negb_true_iff in Hx. rewrite Hx. by apply IH.
Qed.

(** A whitespace character that starts [b] followed by more text is
    comparable with [b] alone. *)
Lemma starts_with_comparable (ws : string) : forall b rest,
  PyStr.starts_with ws (b +:+ rest) = true -> comparable ws b = true.
Proof.
  unfold comparable.
  induction ws as [|a ws IH]; intros b rest Hst; [done|].
  destruct b as [|c b]; [by rewrite orb_true_r|].
  rewrite append_cons in Hst. simpl in *.
  apply andb_true_iff in Hst as [Hac Hst].
  rewrite Hac. simpl. specialize (IH _ _ Hst).
  apply Ascii.eqb_eq in Hac as ->. by rewrite Ascii.eqb_refl.
Qed.

Lemma space_at_clean (b rest : string) :
  starts_clean b = true -> PyStr.space_at (b +:+ rest) = None.
Proof.
  unfold starts_clean, PyStr.space_at. intros Hb.
  apply find_none_forallb. apply forallb_forall. intros ws Hws.
  rewrite forallb_forall in Hb. specialize (Hb ws Hws).
  apply negb_true_iff in Hb. apply negb_true_iff.
  destruct (PyStr.starts_with ws (b +:+ rest)) eqn:E; [|done].
  apply starts_with_comparable in E. congruence.
Qed.

Lemma split_from_word (w : string) : forall cur rest,
  break_free w = true ->
  PyStr.split_from 0 cur (w +:+ rest) = PyStr.split_from 0 (cur +:+ w) rest.
Proof.
  induction w as [|c w IH]; intros cur rest Hw.
  - by rewrite append_nil_r.
  - cbn [break_free] in Hw. apply andb_true_iff in Hw as [Hc Hw].
    apply andb_true_iff in Hc as [_ Hc].
    pose proof (space_at_clean _ rest Hc) as Hnone.
    rewrite append_cons in *. cbn [PyStr.split_from]. rewrite Hnone.
    rewrite (IH _ _ Hw), append_assoc. by rewrite append_cons.
Qed.

Lemma normalize_word (w : string) : break_free w = true -> normalize w = w.
Proof.
  induction w as [|c w IH]; [done|].
  cbn [break_free]. intros Hw. apply andb_true_iff in Hw as [Hc Hw].
  apply andb_true_iff in Hc as [Hc _]. apply negb_true_iff in Hc.
  by rewrite normalize_cons, Hc, IH.
Qed.

Lemma space_at_space (rest : string) :
  PyStr.space_at (String " " rest) = Some (String " " EmptyString).
Proof. reflexivity. Qed.

Lemma split_from_gap (g : string) : forall cur rest,
  PyStr.truthy g = true -> all_chars is_separator g = true ->
  PyStr.split_from 0 cur (normalize g +:+ rest)
  = PyStr.flush cur ++ PyStr.split_from 0 EmptyString rest.
Proof.
  induction g as [|c g IH]; [done|].
  intros cur rest _ Hg. simpl in Hg. apply andb_true_iff in Hg as [Hc Hg].
  rewrite normalize_cons.
  assert (Hsp : (if is_mark c then " "%char else c) = " "%char).
  { unfold is_separator, is_mark in *.
    destruct (Ascii.eqb c " ") eqn:E1.
    - apply Ascii.eqb_eq in E1 as ->. done.
    - simpl in Hc. by rewrite Hc. }
  rewrite Hsp, append_cons. cbn [PyStr.split_from].
  rewrite space_at_space. cbn [String.length Nat.sub].
  destruct g as [|d g].
  - done.
  - rewrite (IH EmptyString rest eq_refl Hg). by rewrite app_nil_l.
Qed.

Lemma split_from_gap_opt (g rest : string) :
  all_chars is_separator g = true ->
  PyStr.split_from 0 EmptyString (normalize g +:+ rest)
  = PyStr.split_from 0 EmptyString rest.
Proof.
  destruct g as [|c g]; [done|].
  intros Hg. by rewrite split_from_gap.
Qed.

(** [dereference] strips every leading marker, so it leaves a target
    without marker alone and is idempotent. *)
Lemma lstrip_marker (name : string) :
  PyStr.lstrip "#" (String "#" name) = PyStr.lstrip "#" name.
Proof. reflexivity. Qed.

Lemma lstrip_plain c (name : string) :
  Ascii.eqb c "#" = false ->
  PyStr.lstrip "#" (String c name) = String c name.
Proof. simpl. by intros ->. Qed.

Lemma lstrip_idempotent (h : string) :
  PyStr.lstrip "#" (PyStr.lstrip "#" h) = PyStr.lstrip "#" h.
Proof.
  induction h as [|c h IH]; [done|].
  simpl. destruct (Ascii.eqb c "#") eqn:E; [done|]. simpl. by rewrite E.
Qed.

Example dereference_Foo :
  dereference "#Foo" [] = (OK "Foo", [LogInfo "Dereferencing " (ArgStr "#Foo")])
  /\ dereference "Foo" [] = (OK "Foo", [LogInfo "Dereferencing " (ArgStr "Foo")]).
Proof. by split. Qed.

End StringFacts.

(** ** [to_camel_case] *)

Section CamelCase.

Context {builtins : Builtins}.

(** The value computed once the empty-input guard is passed. *)
Lemma to_camel_case_nonempty (text : string) :
  PyStr.truthy text = true ->
  to_camel_case text =
    match PyStr.split (normalize text) with
    | [] => Raise IndexError
    | s0 :: rest => OK (s0 +:+ PyStr.join (map str_capitalize rest))
    end.
Proof.
  intros Ht. unfold to_camel_case. fold (normalize text).
  by rewrite (truthy_length _ Ht).
Qed.

Lemma split_phrase_tail (tail : list (string * string)) : forall cur trail,
  PyStr.truthy cur = true ->
  forallb (fun sw => is_gap sw.1 && is_word sw.2) tail = true ->
  all_chars is_separator trail = true ->
  PyStr.split_from 0 cur
    (normalize (PyStr.join (map (fun sw => sw.1 +:+ sw.2) tail) +:+ trail))
  = cur :: map snd tail.
Proof.
  induction tail as [|[s w] tail IH]; intros cur trail Hcur Htail Htrail.
  - simpl. rewrite append_nil_l.
    destruct trail as [|c t].
    + by destruct cur.
    + rewrite <- (append_nil_r (normalize (String c t))).
      rewrite split_from_gap by done. by destruct cur.
  - simpl in Htail. apply andb_true_iff in Htail as [Hsw Htail].
    apply andb_true_iff in Hsw as [Hs Hw]. simpl in Hs, Hw.
    unfold is_gap in Hs. apply andb_true_iff in Hs as [Hs1 Hs2].
    unfold is_word in Hw. apply andb_true_iff in Hw as [Hw1 Hw2].
    simpl. rewrite !append_assoc, !normalize_append, (normalize_word w Hw2).
    rewrite split_from_gap by done.
    rewrite split_from_word by done. rewrite append_nil_l.
    rewrite <- normalize_append, (IH w trail Hw1 Htail Htrail).
    by destruct cur.
Qed.

Lemma split_phrase lead w1 tail trail :
  all_chars is_separator lead = true ->
  is_word w1 = true ->
  forallb (fun sw => is_gap sw.1 && is_word sw.2) tail = true ->
  all_chars is_separator trail = true ->
  PyStr.split (normalize (phrase lead w1 tail trail)) = w1 :: map snd tail.
Proof.
  intros Hlead Hw1 Htail Htrail. unfold phrase, PyStr.split.
  unfold is_word in Hw1. apply andb_true_iff in Hw1 as [Hw1 Hw2].
  rewrite !normalize_append, (normalize_word w1 Hw2).
  rewrite split_from_gap_opt by done.
  rewrite split_from_word by done. rewrite append_nil_l.
  rewrite <- normalize_append. by apply split_phrase_tail.
Qed.



(** After its first byte no whitespace character holds a space, a hyphen
    or an underscore, so the two replacements leave it as it is. *)
Lemma whitespace_tails :
  forallb (fun ws => match ws with
                     | String _ p => all_chars (fun a => negb (is_separator a)) p
                     | EmptyString => false
                     end) PyStr.whitespace = true.
Proof. reflexivity. Qed.

Lemma starts_with_normalize (p : string) : forall s,
  all_chars (fun a => negb (is_separator a)) p = true ->
  PyStr.starts_with p (normalize s) = PyStr.starts_with p s.
Proof.
  induction p as [|a p IH]; intros s Hp; [done|].
  simpl in Hp. apply andb_true_iff in Hp as [Ha Hp].
  destruct s as [|c s]; [done|].
  rewrite normalize_cons. simpl. rewrite (IH _ Hp). f_equal.
  apply negb_true_iff in Ha. unfold is_separator, is_mark in *.
  destruct (Ascii.eqb c "-") eqn:E1; simpl.
  { apply Ascii.eqb_eq in E1 as ->.
    destruct (Ascii.eqb a " ") eqn:E2; [done|]. simpl in Ha.
    destruct (Ascii.eqb a "-") eqn:E3; [done|]. done. }
  destruct (Ascii.eqb c "_") eqn:E4; [|done].
  apply Ascii.eqb_eq in E4 as ->.
  destruct (Ascii.eqb a " ") eqn:E2; [done|]. simpl in Ha.
  destruct (Ascii.eqb a "-") eqn:E3; [done|]. simpl in Ha. by rewrite Ha.
Qed.

Lemma space_at_normalize c (r : string) :
  PyStr.space_at (String c (normalize r)) = PyStr.space_at (String c r).
Proof.
  unfold PyStr.space_at. apply find_ext_in. intros ws Hws.
  pose proof whitespace_tails as Ht. rewrite forallb_forall in Ht.
  specialize (Ht ws Hws). destruct ws as [|a p]; [done|].
  simpl. by rewrite starts_with_normalize.
Qed.

Lemma flush_app_nil cur (l : list string) :
  PyStr.flush cur ++ l = [] <-> cur = EmptyString /\ l = [].
Proof. destruct cur; simpl; split; try done; by intros [? ?]. Qed.

Lemma split_from_nil (s : string) : forall skip cur,
  PyStr.split_from skip cur (normalize s) = [] <->
  cur = EmptyString /\ only_breaks skip s = true.
Proof.
  induction s as [|c s IH]; intros skip cur.
  - simpl. destruct cur; split; try done. by intros [? _].
  - rewrite normalize_cons. cbn [PyStr.split_from only_breaks].
    destruct skip as [|k]; [|apply IH].
    destruct (is_mark c) eqn:Hm.
    + rewrite space_at_space. cbn [String.length Nat.sub].
      rewrite flush_app_nil, IH. tauto.
    + rewrite space_at_normalize.
      destruct (PyStr.space_at (String c s)) as [ws|].
      * rewrite flush_app_nil, IH. tauto.
      * rewrite IH. split; [|by intros [_ ?]].
        intros [Hcur _]. by destruct cur.
Qed.

Lemma separators_all_breaks (text : string) :
  all_chars is_separator text = true -> all_breaks text = true.
Proof.
  unfold all_breaks. induction text as [|c t IH]; [done|].
  simpl. intros Ht. apply andb_true_iff in Ht as [Hc Ht].
  destruct (is_mark c) eqn:Hm; [by apply IH|].
  unfold is_separator, is_mark in *.
  destruct (Ascii.eqb c " ") eqn:E1.
  - apply Ascii.eqb_eq in E1 as ->. rewrite space_at_space. by apply IH.
  - simpl in Hc. congruence.
Qed.

(** C10, as the code has it: [to_camel_case] returns a value exactly when
    the input is empty or holds a character that is neither whitespace
    (any character [str.split()] cuts on) nor a hyphen nor an underscore;
    on every other input, in particular on every non-empty input made
    only of spaces, hyphens and underscores, it fails with an
    out-of-bounds index access. *)
Theorem to_camel_case_returns_iff (text : string) :
  (returns (to_camel_case text) <->
     text = EmptyString \/ all_breaks text = false) /\
  (to_camel_case text = Raise IndexError <->
     text <> EmptyString /\ all_breaks text = true) /\
  (text <> EmptyString /\ all_chars is_separator text = true ->
     to_camel_case text = Raise IndexError).
Proof.
  destruct text as [|c t]; [by intuition|].
  rewrite to_camel_case_nonempty by done.
  pose proof (split_from_nil (String c t) 0 EmptyString) as Hnil.
  fold (PyStr.split (normalize (String c t))) in Hnil.
  fold (all_breaks (String c t)) in Hnil.
  pose proof (separators_all_breaks (String c t)) as Hsep.
  destruct (PyStr.split (normalize (String c t))) as [|s0 rest].
  - assert (Hb : all_breaks (String c t) = true) by by apply Hnil.
    rewrite Hb. simpl. intuition congruence.
  - assert (Hb : all_breaks (String c t) = false).
    { destruct (all_breaks (String c t)); [|done].
      destruct Hnil as [_ Hnil]. by specialize (Hnil (conj eq_refl eq_refl)). }
    rewrite Hb. simpl. split; [by intuition|]. split.
    + split; [done|]. by intros [_ ?].
    + intros [_ Hs]. apply Hsep in Hs. congruence.
Qed.

(** Whitespace other than ASCII is cut on as well. *)
Example to_camel_case_nbsp :
  to_camel_case nbsp = Raise IndexError /\
  to_camel_case ("Invoice" +:+ nbsp +:+ "Line")
  = OK ("Invoice" +:+ str_capitalize "Line").
Proof.
  split; [reflexivity|].
  rewrite to_camel_case_nonempty by reflexivity.
  change (PyStr.split (normalize ("Invoice" +:+ nbsp +:+ "Line")))
    with ["Invoice"; "Line"].
  simpl. by rewrite append_nil_r.
Qed.

End CamelCase.

Lemma ascii_builtins_mapping : ascii_case_mapping.
Proof. by intros w _. Qed.


Lemma to_camel_case_returns_iff_witness :
  to_camel_case " -_" = Raise IndexError.
Proof.
  apply (proj2 (proj2 (to_camel_case_returns_iff " -_"))).
  split; [discriminate | reflexivity].
Defined.

(** A tab is not one of the three separators, the input holding only a tab
    is not empty, and yet [to_camel_case] fails on it: returning a value is
    not equivalent to "empty, or some character other than space, hyphen
    and underscore". *)
Lemma to_camel_case_tab_counterexample :
  ~ (returns (to_camel_case (String "009" EmptyString)) <->
       String "009" EmptyString = EmptyString
       \/ all_chars is_separator (String "009" EmptyString) = false).
Proof.
  intros [_ Hback]. exact (Hback (or_intror eq_refl)).
Qed.

(** ** The type resolver and the row parser *)

Section Rows.

Context {builtins : Builtins}.

Lemma bind_OK {S A B : Type} (m : ST S A) (k : A -> ST S B) s a s' :
  m s = (OK a, s') -> bind m k s = k a s'.
Proof. unfold bind. by intros ->. Qed.

Lemma bind_Raise {S A B : Type} (m : ST S A) (k : A -> ST S B) s e s' :
  m s = (Raise e, s') -> bind m k s = (Raise e, s').
Proof. unfold bind. by intros ->. Qed.

(** The resolver on a cell with a single token. *)
Lemma resolve_type_single type_td type_code tok log :
  Bs4.find "code" type_td = Some type_code ->
  Bs4.strings type_code = [tok] ->
  resolve_type type_td log =
    match SIMPLE_TYPES !! tok with
    | Some (ty, fmt) => (OK (Some ty, None, fmt), log)
    | None =>
        (OK (Some "string", None, Some (str_lower tok)),
         log ++ [LogError "Unknow type " (ArgStr tok)])
    end.
Proof.
  intros Hcode Htok. unfold resolve_type.
  rewrite Hcode. simpl getattr.
  erewrite bind_OK by reflexivity. rewrite Htok. simpl.
  destruct (SIMPLE_TYPES !! tok) as [[ty fmt]|]; reflexivity.
Qed.

(** A row with four cells and a name span, once its visibility cell and
    its type cell are read. *)
Lemma parse_row_resolved tr vis_td attribute_td type_td desc_td name_code
    ro rq prop_type items prop_format st log log' :
  row_items tr = [vis_td; attribute_td; type_td; desc_td] ->
  Bs4.find "code" attribute_td = Some name_code ->
  visibility vis_td = OK (ro, rq) ->
  resolve_type type_td log = (OK (prop_type, items, prop_format), log') ->
  parse_row tr st log =
    (OK (row_done st (Bs4.string_ name_code) rq
           {| prop_type := prop_type;
              prop_description := Bs4.get_text desc_td;
              prop_items := items;
              prop_format := format_key prop_format |}),
     log').
Proof.
  intros Hrow Hname Hvis Hty. unfold parse_row. fold (row_items tr).
  rewrite Hrow. cbv iota. rewrite Hname, Hvis.
  unfold bind at 1. simpl getattr. unfold ret at 1.
  unfold bind at 1. unfold lift at 1.
  unfold bind at 1. rewrite Hty.
  reflexivity.
Qed.

(** The loop goes on with the next row after a row that returned. *)
Lemma for_each_step {S A X : Type} (body : X -> A -> ST S A) x xs a s a' s' :
  body x a s = (OK a', s') ->
  for_each body (x :: xs) a s = for_each body xs a' s'.
Proof. intros H. simpl. by erewrite bind_OK. Qed.

Lemma for_each_inv {S A X : Type} (body : X -> A -> ST S A)
    (P : A -> S -> Prop) :
  (forall x a s a' s', body x a s = (OK a', s') -> P a s -> P a' s') ->
  forall xs a s a' s',
    for_each body xs a s = (OK a', s') -> P a s -> P a' s'.
Proof.
  intros Hbody xs. induction xs as [|x xs IH]; intros a s a' s' Hrun Ha.
  - by injection Hrun as <- <-.
  - simpl in Hrun. unfold bind in Hrun.
    destruct (body x a s) as [[a1|e] s1] eqn:Hx; [|done].
    eauto.
Qed.

Lemma for_each_app {S A X : Type} (body : X -> A -> ST S A) xs ys a s :
  for_each body (xs ++ ys) a s =
    match for_each body xs a s with
    | (OK a', s') => for_each body ys a' s'
    | (Raise e, s') => (Raise e, s')
    end.
Proof.
  revert a s. induction xs as [|x xs IH]; intros a s; [done|].
  simpl. unfold bind. destruct (body x a s) as [[a1|e] s1]; [apply IH|done].
Qed.

(** Once a row raises, the loop raises: no exception is caught. *)
Lemma for_each_raises {S A X : Type} (body : X -> A -> ST S A) (x : X) :
  (forall a s, exists e s', body x a s = (Raise e, s')) ->
  forall xs a s, In x xs -> exists e s', for_each body xs a s = (Raise e, s').
Proof.
  intros Hx xs. induction xs as [|y xs IH]; intros a s Hin; [done|].
  simpl. unfold bind. destruct (body y a s) as [[a1|e] s1] eqn:Hy.
  - destruct Hin as [->|Hin]; [|by apply IH].
    destruct (Hx a s) as (e & s' & He). congruence.
  - by exists e, s1.
Qed.

(** The resolver on a cell whose tokens are neither a single token nor
    the array pattern. *)
Lemma resolve_type_other type_td type_code log :
  Bs4.find "code" type_td = Some type_code ->
  List.length (Bs4.strings type_code) <> 1 ->
  Bs4.strings type_code <> ["Array["; "Object"; "]"] ->
  resolve_type type_td log =
    (OK (None, None, None),
     log ++ [LogError "Couldn't make sense of " (ArgTag type_td)]).
Proof.
  intros Hcode Hlen Hpat. unfold resolve_type.
  rewrite Hcode. unfold bind at 1. simpl getattr. unfold ret at 1.
  rewrite (bool_decide_eq_false_2 _ Hpat), andb_false_r.
  destruct (Bs4.strings type_code) as [|t [|t' ts]]; try reflexivity.
  by destruct Hlen.
Qed.

(** The resolver on the array pattern. *)
Lemma resolve_type_array type_td type_code a h log :
  Bs4.find "code" type_td = Some type_code ->
  Bs4.strings type_code = ["Array["; "Object"; "]"] ->
  Bs4.find "a" type_code = Some a ->
  Bs4.get (Bs4.attrs a) "href" = Some h ->
  resolve_type type_td log =
    (OK (Some "array",
         Some ("#/components/schemas/" +:+ PyStr.lstrip "#" h), None),
     log ++ [LogInfo "Dereferencing " (ArgStr h)]).
Proof.
  intros Hcode Hpat Ha Hh. unfold resolve_type.
  rewrite Hcode. unfold bind at 1. simpl getattr. unfold ret at 1.
  rewrite Hpat. rewrite bool_decide_eq_true_2 by done.
  cbn [List.length Nat.eqb andb]. rewrite Ha. unfold bind at 1. simpl getattr. unfold ret at 1.
  cbv beta iota. unfold getitem. rewrite Hh. reflexivity.
Qed.

(** A row that returns leaves the locals as [row_done] describes. *)
Lemma parse_row_inv tr st log st' log' :
  parse_row tr st log = (OK st', log') ->
  exists prop_name is_required entry,
    st' = row_done st prop_name is_required entry.
Proof.
  unfold parse_row. fold (row_items tr).
  destruct (row_items tr) as [|vis [|att [|ty [|desc [|x xs]]]]]; try done.
  unfold bind at 1. destruct (Bs4.find "code" att) as [name_code|]; [|done].
  simpl getattr. unfold ret at 1.
  unfold bind at 1. unfold lift at 1.
  destruct (visibility vis) as [[ro rq]|e]; [|done].
  unfold bind at 1.
  destruct (resolve_type ty log) as [[[[pt it] pf]|e] l1]; [|done].
  unfold ret. intros H. injection H as <- _.
  by eexists _, _, _.
Qed.

(** C1: on a type cell whose code span holds the single token [tok], for
    each of the seven documented names the resolver returns the documented
    type and format, no items reference, and logs nothing; and the keys of
    [SIMPLE_TYPES], with their values, are exactly these seven. *)
Theorem resolve_type_known_scalar :
  let documented :=
    [ ("String", ("string", None));
      ("Integer", ("integer", None));
      ("Boolean", ("boolean", None));
      ("DateTime", ("string", Some "date-time"));
      ("Datetime", ("string", Some "date-time"));
      ("Date", ("string", Some "date"));
      ("Decimal", ("number", Some "decimal")) ] in
  (forall tok p, SIMPLE_TYPES !! tok = Some p <-> In (tok, p) documented) /\
  (forall type_td type_code tok ty fmt log,
     Bs4.find "code" type_td = Some type_code ->
     Bs4.strings type_code = [tok] ->
     In (tok, (ty, fmt)) documented ->
     resolve_type type_td log = (OK (Some ty, None, fmt), log)).
Proof.
  intros documented.
  assert (Hkeys : forall tok p,
             SIMPLE_TYPES !! tok = Some p <-> In (tok, p) documented).
  { intros tok p. rewrite <- list_elem_of_In. symmetry.
    apply (elem_of_list_to_map (M := gmap string)).
    apply (bool_decide_unpack _). by vm_compute. }
  split; [exact Hkeys|].
  intros type_td type_code tok ty fmt log Hcode Htok Hin.
  rewrite (resolve_type_single _ _ _ _ Hcode Htok).
  apply Hkeys in Hin. by rewrite Hin.
Qed.

(** C2: on a row whose type cell's code span holds exactly the tokens
    ["Array["], ["Object"], ["]"] and whose hyperlink has the raw target
    [h], the resolver yields type ["array"], no format and the reference
    ["#/components/schemas/"] followed by [h] without its leading ["#"]
    markers; the property entry written for the row has that type, that
    ["items"] reference and no ["format"] key. *)
Theorem array_row_schema tr vis_td attribute_td type_td desc_td name_code
    type_code a h ro rq st log :
  row_items tr = [vis_td; attribute_td; type_td; desc_td] ->
  Bs4.find "code" attribute_td = Some name_code ->
  visibility vis_td = OK (ro, rq) ->
  Bs4.find "code" type_td = Some type_code ->
  Bs4.strings type_code = ["Array["; "Object"; "]"] ->
  Bs4.find "a" type_code = Some a ->
  Bs4.get (Bs4.attrs a) "href" = Some h ->
  let ref := "#/components/schemas/" +:+ PyStr.lstrip "#" h in
  let entry :=
    {| prop_type := Some "array";
       prop_description := Bs4.get_text desc_td;
       prop_items := Some ref;
       prop_format := None |} in
  resolve_type type_td log
  = (OK (Some "array", Some ref, None),
     log ++ [LogInfo "Dereferencing " (ArgStr h)]) /\
  parse_row tr st log
  = (OK (row_done st (Bs4.string_ name_code) rq entry),
     log ++ [LogInfo "Dereferencing " (ArgStr h)]) /\
  st_properties (row_done st (Bs4.string_ name_code) rq entry)
    !! Bs4.string_ name_code = Some entry /\
  member (value_of_property entry) "type" = Some (VStr "array") /\
  member (value_of_property entry) "items"
  = Some (VDict [(VStr "$ref", VStr ref)]) /\
  member (value_of_property entry) "format" = None.
Proof.
  intros Hrow Hname Hvis Hcode Hpat Ha Hh ref entry.
  pose proof (resolve_type_array _ _ _ _ log Hcode Hpat Ha Hh) as Hres.
  split; [exact Hres|]. split.
  - exact (parse_row_resolved _ _ _ _ _ _ _ _ _ _ _ st _ _ Hrow Hname Hvis Hres).
  - split; [apply lookup_insert_eq|]. by repeat split.
Qed.

(** A row without a name span raises, whatever the locals and the log, and
    leaves the log as it was. *)
Lemma parse_row_nameless tr st log :
  (forall attribute_td,
     attribute_cell tr = Some attribute_td ->
     Bs4.find "code" attribute_td = None) ->
  parse_row tr st log
  = (Raise (if Nat.eqb (List.length (row_items tr)) 4
            then AttributeError else ValueError),
     log).
Proof.
  unfold attribute_cell, parse_row. fold (row_items tr). intros Hno.
  destruct (row_items tr) as [|vis [|att [|ty [|desc [|x xs]]]]]; try done.
  simpl in Hno. by rewrite (Hno att eq_refl).
Qed.

(** C5, as the code has it: a row whose attribute-name cell has no code
    span makes the row parser raise without logging anything, and a table
    that contains such a row makes [parse_attributes_table] raise: no
    property map and no required list are returned for the table. *)
Theorem nameless_row_aborts_table table tbody tr log :
  Bs4.find "tbody" table = Some tbody ->
  In tr (Bs4.find_all "tr" tbody) ->
  (forall attribute_td,
     attribute_cell tr = Some attribute_td ->
     Bs4.find "code" attribute_td = None) ->
  (forall st l,
     parse_row tr st l
     = (Raise (if Nat.eqb (List.length (row_items tr)) 4
               then AttributeError else ValueError),
        l)) /\
  exists e log', parse_attributes_table table log = (Raise e, log').
Proof.
  intros Htbody Hin Hno.
  split; [intros st l; by apply parse_row_nameless|].
  unfold parse_attributes_table. rewrite Htbody.
  unfold bind at 1. simpl getattr. unfold ret at 1. cbv beta iota.
  destruct (for_each_raises parse_row tr) with
    (xs := Bs4.find_all "tr" tbody)
    (a := {| st_properties := ∅; st_required := [] |}) (s := log)
    as (e & log' & Hrun); [|exact Hin|].
  - intros st l. eexists _, _. by apply parse_row_nameless.
  - exists e, log'. by rewrite (bind_Raise _ _ _ _ _ Hrun).
Qed.

(** C9: when [parse_attributes_table] returns, every name of the required
    list is a key of the property map. *)
Theorem required_are_properties table log props req log' :
  parse_attributes_table table log = (OK (props, req), log') ->
  forall name, In name req -> is_Some (props !! name).
Proof.
  unfold parse_attributes_table. unfold bind at 1.
  destruct (getattr (Bs4.find "tbody" table) log) as [[tbody|e] l0]; [|done].
  unfold bind.
  destruct (for_each parse_row (Bs4.find_all "tr" tbody) _ l0)
    as [[st|e] l1] eqn:Hrun; [|done].
  unfold ret. intros H. injection H as <- <- _.
  pose (P := fun (st : table_state) (_ : list log_record) =>
    forall name, In name (st_required st) ->
                 is_Some (st_properties st !! name)).
  apply (for_each_inv parse_row P) in Hrun; [exact Hrun| |by intros ? []].
  clear. intros tr st l st' l' Hrow HP name Hin.
  destruct (parse_row_inv _ _ _ _ _ Hrow) as (pn & rq & entry & ->).
  simpl in *. destruct (decide (pn = name)) as [->|Hne].
  - rewrite lookup_insert_eq. by eexists.
  - rewrite lookup_insert_ne by done. apply HP.
    destruct rq; [|done]. apply in_app_or in Hin as [Hin|[Hin|[]]]; done.
Qed.

End Rows.

Lemma resolve_type_known_scalar_witness :
  resolve_type (td [code [text "Decimal"]]) []
  = (OK (Some "number", None, Some "decimal"), []).
Proof.
  apply (proj2 resolve_type_known_scalar
           (td [code [text "Decimal"]]) (code [text "Decimal"]) "Decimal").
  - reflexivity.
  - reflexivity.
  - simpl. tauto.
Defined.

Lemma array_row_schema_witness :
  parse_row lines_row {| st_properties := ∅; st_required := [] |} []
  = (OK (row_done {| st_properties := ∅; st_required := [] |}
           (Some "lines") false
           {| prop_type := Some "array";
              prop_description := "Invoice lines";
              prop_items := Some "#/components/schemas/Line";
              prop_format := None |}),
     [LogInfo "Dereferencing " (ArgStr "#Line")]).
Proof.
  refine (proj1 (proj2
    (array_row_schema lines_row _ _ _ _ _ _ _ "#Line" false false _ []
       eq_refl eq_refl eq_refl eq_refl eq_refl eq_refl eq_refl))).
Defined.

Lemma nameless_row_aborts_table_witness :
  exists e log',
    parse_attributes_table (sample_table [id_row; nameless_row; money_row]) []
    = (Raise e, log').
Proof.
  refine (proj2
    (nameless_row_aborts_table
       (sample_table [id_row; nameless_row; money_row])
       (Bs4.Tag "tbody" [] [id_row; nameless_row; money_row])
       nameless_row [] eq_refl _ _)).
  - simpl. tauto.
  - intros attribute_td H. injection H as <-. reflexivity.
Defined.

(** The table made of a well-formed row, a row without a name span and
    another well-formed row is not parsed: the call raises, so the entries
    of the two other rows are not produced. *)
Lemma nameless_row_counterexample :
  parse_attributes_table (sample_table [id_row; nameless_row; money_row]) []
  = (Raise AttributeError, []) /\
  ~ returns
      (parse_attributes_table (sample_table [id_row; nameless_row; money_row])
         []).1.
Proof. split; [reflexivity | exact (fun H => H)]. Qed.

Lemma required_are_properties_witness :
  is_Some
    ((<[Some "total" :=
          {| prop_type := Some "string"; prop_description := "Total";
             prop_items := None; prop_format := Some "money" |}]>
        (<[Some "id" :=
             {| prop_type := Some "integer"; prop_description := "The id";
                prop_items := None; prop_format := None |}]> ∅)
      : gmap (option string) PropertySchema) !! Some "id").
Proof.
  refine (required_are_properties (sample_table [id_row; money_row]) []
            _ [Some "id"] _ eq_refl (Some "id") _).
  simpl. tauto.
Defined.

(** The one-row table of the documentation's ["id"] attribute, and the
    page built around it. *)
Example id_table_parsed :
  parse_attributes_table (sample_table [id_row]) []
  = (OK ({[ Some "id" :=
              {| prop_type := Some "integer"; prop_description := "The id";
                 prop_items := None; prop_format := None |} ]},
         [Some "id"]),
     []).
Proof. reflexivity. Qed.

Example invoice_line_page :
  parse_page_schemas "Invoice-line" (sample_table [id_row]) []
  = (OK [ ("InvoiceLine.Attributes",
           {| obj_type := "object";
              properties :=
                {[ Some "id" :=
                     {| prop_type := Some "integer";
                        prop_description := "The id";
                        prop_items := None; prop_format := None |} ]};
              required := Some [Some "id"] |}) ],
     []).
Proof. reflexivity. Qed.

(** A heading made of separators only aborts the page after its table
    has been parsed. *)
Example separator_heading_page :
  parse_page_schemas " - " (sample_table [id_row]) [] = (Raise IndexError, []).
Proof. reflexivity. Qed.

(** ** The registry and the pushed document *)

Section Registry.

Lemma insert_schema_keeps it (reg reg' : gmap string ObjectSchema) name first :
  insert_schema it reg = (OK tt, reg') ->
  reg !! name = Some first -> reg' !! name = Some first.
Proof.
  destruct it as [k d]. unfold insert_schema.
  destruct (reg !! k) eqn:Hk; [done|].
  intros H Hname. injection H as <-.
  rewrite lookup_insert_ne; [done|]. congruence.
Qed.

(** Names already in the registry keep their schema through every page
    that is merged without a collision. *)
Lemma aggregate_keeps pages (reg reg' : gmap string ObjectSchema) name first :
  aggregate pages reg = (OK tt, reg') ->
  reg !! name = Some first -> reg' !! name = Some first.
Proof.
  unfold aggregate. intros Hrun Hname.
  apply (for_each_inv _ (fun _ r => r !! name = Some first)) in Hrun;
    [done| |done].
  clear. intros pg [] r [] r' Hpg Hr.
  destruct pg as [[|it its]|]; try (by injection Hpg as <-).
  unfold aggregate_page in Hpg.
  apply (for_each_inv _ (fun _ r => r !! name = Some first)) in Hpg;
    [done| |done].
  clear. intros it [] r [] r' Hit Hr. by eapply insert_schema_keeps.
Qed.

(** C6: inserting a name that the registry already holds raises
    [AssertionError] and leaves the registry as it was; in a run where a
    page brings a name again, after an earlier page inserted it and the
    pages in between were merged, the run aborts with [AssertionError] at
    that page, no document is pushed, and the registry at that moment
    still binds the name to the schema inserted first. *)
Theorem duplicate_name_aborts pre name first mid second more post
    (reg0 reg1 : gmap string ObjectSchema) :
  aggregate pre ∅ = (OK tt, reg0) ->
  reg0 !! name = None ->
  aggregate mid (<[name := first]> reg0) = (OK tt, reg1) ->
  let pages :=
    pre ++ Some [(name, first)] :: mid ++ Some ((name, second) :: more) :: post in
  insert_schema (name, second) reg1 = (Raise AssertionError, reg1) /\
  aggregate pages ∅ = (Raise AssertionError, reg1) /\
  main pages = (Raise AssertionError, reg1) /\
  reg1 !! name = Some first.
Proof.
  intros Hpre Hfresh Hmid pages.
  assert (Hfirst : reg1 !! name = Some first).
  { eapply aggregate_keeps; [exact Hmid|]. apply lookup_insert_eq. }
  assert (Hins : insert_schema (name, second) reg1 = (Raise AssertionError, reg1)).
  { unfold insert_schema. by rewrite Hfirst. }
  assert (Hrun : aggregate pages ∅ = (Raise AssertionError, reg1)).
  { unfold pages, aggregate in *. rewrite for_each_app, Hpre.
    rewrite (for_each_step _ _ _ _ _ tt (<[name := first]> reg0)).
    - rewrite for_each_app, Hmid.
      assert (Hpage : aggregate_page (Some ((name, second) :: more)) reg1
                      = (Raise AssertionError, reg1)).
      { unfold aggregate_page. simpl for_each.
        by rewrite (bind_Raise _ _ _ _ _ Hins). }
      simpl for_each. by rewrite (bind_Raise _ _ _ _ _ Hpage).
    - simpl. unfold bind, insert_schema. by rewrite Hfresh. }
  split; [exact Hins|]. split; [exact Hrun|]. split; [|exact Hfirst].
  unfold main. by rewrite Hrun.
Qed.

Lemma duplicate_name_aborts_witness :
  main [ Some [("invoice.Attributes", sample_object "id")];
         None;
         Some [("expense.Attributes", sample_object "number")];
         Some [("invoice.Attributes", sample_object "total")];
         Some [("subject.Attributes", sample_object "name")] ]
  = (Raise AssertionError,
     <["expense.Attributes" := sample_object "number"]>
       (<["invoice.Attributes" := sample_object "id"]> ∅)).
Proof.
  refine (proj1 (proj2 (proj2
    (duplicate_name_aborts [] "invoice.Attributes" (sample_object "id")
       [None; Some [("expense.Attributes", sample_object "number")]]
       (sample_object "total") []
       [Some [("subject.Attributes", sample_object "name")]]
       ∅ _ eq_refl eq_refl eq_refl)))).
Defined.

Lemma dict_get_items (l : list (string * ObjectSchema)) name :
  dict_get (map (fun kv => (VStr kv.1, value_of_object kv.2)) l) name
  = value_of_object <$> (list_to_map l : gmap string ObjectSchema) !! name.
Proof.
  induction l as [|[k d] l IH]; [done|].
  simpl. destruct (String.eqb k name) eqn:Ek.
  - apply String.eqb_eq in Ek as ->. by rewrite lookup_insert_eq.
  - apply String.eqb_neq in Ek. by rewrite lookup_insert_ne.
Qed.

Lemma dict_get_registry (schemas : gmap string ObjectSchema) name :
  member (value_of_registry schemas) name
  = value_of_object <$> schemas !! name.
Proof.
  unfold value_of_registry, member.
  by rewrite dict_get_items, list_to_map_to_list.
Qed.

(** C7, as the code has it: the pushed document has the five top-level
    keys ["openapi"], ["info"], ["servers"], ["externalDoc"] and
    ["components"]; ["openapi"] is ["3.0.4"], ["info"], ["externalDoc"]
    and ["components"] are dictionaries, ["components"]["schemas"] binds
    each registry name to its object schema, and ["servers"] is a single
    dictionary with the keys ["url"] and ["description"], not a list. *)
Theorem openapi_document_shape (schemas : gmap string ObjectSchema) :
  keys (openapi schemas)
  = [VStr "openapi"; VStr "info"; VStr "servers"; VStr "externalDoc";
     VStr "components"] /\
  member (openapi schemas) "openapi" = Some (VStr "3.0.4") /\
  is_dict <$> member (openapi schemas) "info" = Some true /\
  is_dict <$> member (openapi schemas) "externalDoc" = Some true /\
  member (openapi schemas) "components"
  = Some (VDict [(VStr "schemas", value_of_registry schemas)]) /\
  (forall name,
     member (value_of_registry schemas) name
     = value_of_object <$> schemas !! name) /\
  member (openapi schemas) "servers"
  = Some (VDict [ (VStr "url", VStr "https://app.fakturoid.cz/api/v3");
                  (VStr "description", VStr "Production Fakturoid server") ]) /\
  is_list <$> member (openapi schemas) "servers" = Some false /\
  main [] = (OK (openapi ∅), ∅).
Proof.
  repeat split; try reflexivity. apply dict_get_registry.
Qed.

End Registry.

(** ** More on [dereference] *)

Section Names.

Lemma lstrip_markers (h : string) :
  exists k,
    h = markers k +:+ PyStr.lstrip "#" h /\
    starts_with_marker (PyStr.lstrip "#" h) = false.
Proof.
  induction h as [|c h (k & Hk & Hs)]; [by exists 0|].
  simpl. destruct (Ascii.eqb c "#") eqn:E.
  - apply Ascii.eqb_eq in E as ->. exists (S k). split; [|done].
    simpl. rewrite append_cons. by rewrite <- Hk.
  - exists 0. split; [done|]. simpl. by rewrite E.
Qed.

(** X3: [dereference] never raises; it logs the raw target once and
    returns the target without any of its leading fragment markers: the
    target is some markers followed by the result, the result starts with
    no marker, and dereferencing the result gives the result again. *)
Theorem dereference_strips_markers (h : string) (log : list log_record) :
  exists k r,
    dereference h log = (OK r, log ++ [LogInfo "Dereferencing " (ArgStr h)]) /\
    h = markers k +:+ r /\
    starts_with_marker r = false /\
    dereference r log = (OK r, log ++ [LogInfo "Dereferencing " (ArgStr r)]).
Proof.
  destruct (lstrip_markers h) as (k & Hk & Hs).
  exists k, (PyStr.lstrip "#" h). repeat split; try done.
  unfold dereference, bind, log_info, ret. by rewrite lstrip_idempotent.
Qed.

End Names.

(** ** More on the resolver and the row parser *)

Section RowOutcomes.

Context {builtins : Builtins}.

Lemma simple_types_values tok ty fmt :
  SIMPLE_TYPES !! tok = Some (ty, fmt) ->
  In ty ["string"; "integer"; "boolean"; "number"] /\
  String.eqb ty "array" = false /\
  format_key fmt = fmt /\
  forall f, fmt = Some f -> f <> EmptyString.
Proof.
  intros H. apply (elem_of_list_to_map_2 (M := gmap string)) in H.
  repeat (apply elem_of_cons in H as [H|H];
          [injection H as -> -> ->; simpl; intuition congruence|]).
  by apply elem_of_nil in H.
Qed.

Lemma format_key_truthy pf f : format_key pf = Some f -> f <> EmptyString.
Proof.
  destruct pf as [g|]; [|done]. simpl. destruct g; [done|].
  by intros [= <-].
Qed.

Lemma resolve_type_no_code type_td log :
  Bs4.find "code" type_td = None ->
  resolve_type type_td log = (Raise AttributeError, log).
Proof. intros H. unfold resolve_type. by rewrite H. Qed.

Lemma resolve_type_no_link type_td type_code log :
  Bs4.find "code" type_td = Some type_code ->
  Bs4.strings type_code = ["Array["; "Object"; "]"] ->
  Bs4.find "a" type_code = None ->
  resolve_type type_td log = (Raise AttributeError, log).
Proof.
  intros Hcode Hpat Ha. unfold resolve_type.
  rewrite Hcode. unfold bind at 1. simpl getattr. unfold ret at 1.
  rewrite Hpat. rewrite bool_decide_eq_true_2 by done.
  cbn [List.length Nat.eqb andb]. by rewrite Ha.
Qed.

Lemma resolve_type_no_href type_td type_code a log :
  Bs4.find "code" type_td = Some type_code ->
  Bs4.strings type_code = ["Array["; "Object"; "]"] ->
  Bs4.find "a" type_code = Some a ->
  Bs4.get (Bs4.attrs a) "href" = None ->
  resolve_type type_td log = (Raise KeyError, log).
Proof.
  intros Hcode Hpat Ha Hh. unfold resolve_type.
  rewrite Hcode. unfold bind at 1. simpl getattr. unfold ret at 1.
  rewrite Hpat. rewrite bool_decide_eq_true_2 by done.
  cbn [List.length Nat.eqb andb]. rewrite Ha.
  unfold bind at 1. simpl getattr. unfold ret at 1.
  cbv beta iota. unfold getitem. by rewrite Hh.
Qed.

(** The resolver either raises before it logs anything, or returns a
    triple and a list of new log records that do not depend on the log it
    is given. *)
Lemma resolve_type_cases type_td :
  (exists e, (e = AttributeError \/ e = KeyError) /\
     forall log, resolve_type type_td log = (Raise e, log)) \/
  (exists pt it pf d,
     (forall log, resolve_type type_td log = (OK (pt, it, pf), log ++ d)) /\
     forall desc,
       well_formed_entry
         {| prop_type := pt; prop_description := desc; prop_items := it;
            prop_format := format_key pf |}).
Proof.
  destruct (Bs4.find "code" type_td) as [type_code|] eqn:Hcode.
  2:{ left. exists AttributeError. split; [by left|].
      intros log. by apply resolve_type_no_code. }
  destruct (decide (Bs4.strings type_code = ["Array["; "Object"; "]"]))
    as [Hpat|Hpat].
  - destruct (Bs4.find "a" type_code) as [a|] eqn:Ha.
    2:{ left. exists AttributeError. split; [by left|].
        intros log. by eapply resolve_type_no_link. }
    destruct (Bs4.get (Bs4.attrs a) "href") as [h|] eqn:Hh.
    2:{ left. exists KeyError. split; [by right|].
        intros log. by eapply resolve_type_no_href. }
    right. eexists _, _, _, _. split.
    + intros log. by eapply resolve_type_array.
    + intros desc. unfold well_formed_entry. simpl.
      split; [|done]. destruct (lstrip_markers h) as (k & _ & Hs). eauto.
  - destruct (decide (List.length (Bs4.strings type_code) = 1)) as [Hlen|Hlen].
    + destruct (Bs4.strings type_code) as [|tok [|tok' toks]] eqn:Htoks;
        try done.
      destruct (SIMPLE_TYPES !! tok) as [[ty fmt]|] eqn:Htok.
      * right. exists (Some ty), None, fmt, [].
        split.
        { intros log. rewrite (resolve_type_single _ _ _ _ Hcode Htoks).
          by rewrite Htok, app_nil_r. }
        intros desc. unfold well_formed_entry. simpl.
        destruct (simple_types_values _ _ _ Htok) as (Hin & -> & -> & Hf).
        done.
      * right. eexists _, _, _, _. split.
        { intros log. rewrite (resolve_type_single _ _ _ _ Hcode Htoks).
          by rewrite Htok. }
        intros desc. unfold well_formed_entry. simpl.
        repeat split; [by left|].
        intros f. apply (format_key_truthy (Some (str_lower tok))).
    + right. eexists _, _, _, _. split.
      * intros log. by eapply resolve_type_other.
      * by split.
Qed.

(** A row either raises, with the log as it was, whatever the locals; or
    adds one entry under its name, with log records of its own. *)
Lemma parse_row_cases tr :
  (exists e,
     (e = ValueError /\ List.length (row_items tr) <> 4
      \/ (e = AttributeError \/ e = KeyError) /\ List.length (row_items tr) = 4)
     /\ forall st log, parse_row tr st log = (Raise e, log)) \/
  (exists entry d,
     List.length (row_items tr) = 4 /\
     well_formed_entry entry /\
     forall st log,
       parse_row tr st log
       = (OK (row_done st (row_name tr) (row_required tr) entry), log ++ d)).
Proof.
  unfold parse_row, row_name, row_required. fold (row_items tr).
  destruct (row_items tr) as [|vis [|att [|ty [|desc [|x xs]]]]];
    try (left; exists ValueError; split; [by left|done]).
  destruct (Bs4.find "code" att) as [name_code|].
  2:{ left. exists AttributeError. split; [right; by split; [left|]|done]. }
  destruct (visibility vis) as [[ro rq]|e] eqn:Hvis.
  2:{ left. exists KeyError. split; [right; by split; [right|]|].
      unfold visibility in Hvis.
      destruct (Bs4.find "div" vis) as [dv|]; [|done].
      destruct (Bs4.get (Bs4.attrs dv) "title"); [done|].
      by injection Hvis as <-. }
  destruct (resolve_type_cases ty) as [(e & He & Hres)|(pt & it & pf & d & Hres & Hwf)].
  - left. exists e. split; [right; by split|].
    intros st log. unfold bind at 1. simpl getattr. unfold ret at 1.
    unfold bind at 1. unfold lift at 1. unfold bind at 1. by rewrite Hres.
  - right. eexists _, d. split; [done|]. split; [apply (Hwf (Bs4.get_text desc))|].
    intros st log. unfold bind at 1. simpl getattr. unfold ret at 1.
    unfold bind at 1. unfold lift at 1. unfold bind at 1. by rewrite Hres.
Qed.

End RowOutcomes.

(** ** More on the table parser *)

Section TableOutcomes.

Context {builtins : Builtins}.

Lemma row_entry_returns tr entry d :
  (forall st log,
     parse_row tr st log
     = (OK (row_done st (row_name tr) (row_required tr) entry), log ++ d)) ->
  row_entry tr = Some entry.
Proof.
  intros H. unfold row_entry. rewrite H. simpl. apply lookup_insert_eq.
Qed.

(** The loop over the rows either raises at its first failing row, or
    adds the entries of all rows; the new log records do not depend on
    the log or on the locals the loop starts from. *)
Lemma rows_cases (rows : list Bs4.node) :
  (exists e d,
     (e = ValueError \/ e = AttributeError \/ e = KeyError) /\
     forall st log, for_each parse_row rows st log = (Raise e, log ++ d)) \/
  (exists d,
     Forall row_returns rows /\
     forall st log,
       for_each parse_row rows st log = (OK (rows_done st rows), log ++ d)).
Proof.
  induction rows as [|tr rows IH].
  - right. exists []. split; [constructor|].
    intros st log. by rewrite app_nil_r.
  - destruct (parse_row_cases tr) as [(e & He & Hrow)|(entry & d1 & Hlen & Hwf & Hrow)].
    + left. exists e, []. split; [intuition|].
      intros st log. simpl. rewrite (bind_Raise _ _ _ _ _ (Hrow st log)).
      by rewrite app_nil_r.
    + pose proof (row_entry_returns _ _ _ Hrow) as Hentry.
      destruct IH as [(e & d2 & He & Hrows)|(d2 & Hall & Hrows)].
      * left. exists e, (d1 ++ d2). split; [done|].
        intros st log. simpl. rewrite (bind_OK _ _ _ _ _ (Hrow st log)).
        by rewrite Hrows, app_assoc.
      * right. exists (d1 ++ d2). split.
        { constructor; [by exists entry|done]. }
        intros st log. simpl. rewrite (bind_OK _ _ _ _ _ (Hrow st log)).
        by rewrite Hrows, app_assoc, Hentry.
Qed.

Lemma table_inv table log props req log' :
  parse_attributes_table table log = (OK (props, req), log') ->
  exists tbody,
    Bs4.find "tbody" table = Some tbody /\
    Forall row_returns (Bs4.find_all "tr" tbody) /\
    props = st_properties (rows_done no_locals (Bs4.find_all "tr" tbody)) /\
    req = st_required (rows_done no_locals (Bs4.find_all "tr" tbody)).
Proof.
  unfold parse_attributes_table.
  destruct (Bs4.find "tbody" table) as [tbody|]; [|done].
  unfold bind at 1. simpl getattr. unfold ret at 1. cbv beta iota.
  destruct (rows_cases (Bs4.find_all "tr" tbody))
    as [(e & d & _ & Hrows)|(d & Hall & Hrows)].
  - by rewrite (bind_Raise _ _ _ _ _ (Hrows _ _)).
  - rewrite (bind_OK _ _ _ _ _ (Hrows _ _)). unfold ret.
    intros H. injection H as <- <- _. by exists tbody.
Qed.

Lemma rows_done_snoc st rows tr :
  rows_done st (rows ++ [tr])
  = match row_entry tr with
    | Some e => row_done (rows_done st rows) (row_name tr) (row_required tr) e
    | None => rows_done st rows
    end.
Proof. unfold rows_done. by rewrite foldl_app. Qed.

Lemma rows_done_required rows : forall st,
  Forall row_returns rows ->
  st_required (rows_done st rows)
  = st_required st ++ map row_name (List.filter row_required rows).
Proof.
  induction rows as [|tr rows IH]; intros st Hall.
  - simpl. by rewrite app_nil_r.
  - apply Forall_cons in Hall as [(e & He & _) Hall].
    change (rows_done st (tr :: rows))
      with (rows_done (match row_entry tr with
                       | Some e => row_done st (row_name tr) (row_required tr) e
                       | None => st end) rows).
    rewrite He, IH by done. simpl.
    destruct (row_required tr); [|done]. simpl. by rewrite <- app_assoc.
Qed.

Lemma rows_done_keys rows : forall st name,
  Forall row_returns rows ->
  is_Some (st_properties (rows_done st rows) !! name) <->
  is_Some (st_properties st !! name) \/ In name (map row_name rows).
Proof.
  induction rows as [|tr rows IH]; intros st name Hall.
  - simpl. tauto.
  - apply Forall_cons in Hall as [(e & He & _) Hall].
    change (rows_done st (tr :: rows))
      with (rows_done (match row_entry tr with
                       | Some e => row_done st (row_name tr) (row_required tr) e
                       | None => st end) rows).
    rewrite He, IH by done. simpl.
    rewrite lookup_insert_is_Some. destruct (decide (row_name tr = name)); tauto.
Qed.

Lemma rows_done_other rows : forall st name,
  Forall (fun tr => row_name tr <> name) rows ->
  st_properties (rows_done st rows) !! name = st_properties st !! name.
Proof.
  induction rows as [|tr rows IH]; intros st name Hall; [done|].
  apply Forall_cons in Hall as [Hne Hall].
  change (rows_done st (tr :: rows))
    with (rows_done (match row_entry tr with
                     | Some e => row_done st (row_name tr) (row_required tr) e
                     | None => st end) rows).
  rewrite IH by done. destruct (row_entry tr); [|done].
  simpl. by rewrite lookup_insert_ne.
Qed.

Lemma rows_done_well_formed rows : forall st,
  Forall row_returns rows ->
  map_Forall (fun _ e => well_formed_entry e) (st_properties st) ->
  map_Forall (fun _ e => well_formed_entry e) (st_properties (rows_done st rows)).
Proof.
  induction rows as [|tr rows IH]; intros st Hall Hst; [done|].
  apply Forall_cons in Hall as [(e & He & Hwf & _) Hall].
  change (rows_done st (tr :: rows))
    with (rows_done (match row_entry tr with
                     | Some e => row_done st (row_name tr) (row_required tr) e
                     | None => st end) rows).
  apply IH; [done|]. rewrite He. simpl. by apply map_Forall_insert_2.
Qed.

End TableOutcomes.

(** ** Outcomes of rows and tables *)

Section Outcomes.

Context {builtins : Builtins}.

(** X4: a row that raises leaves the log as it was and raises
    [ValueError], [AttributeError] or [KeyError]; it raises [ValueError]
    exactly when it has not four element children. *)
Theorem parse_row_errors tr st log :
  ((parse_row tr st log).1 = Raise ValueError <->
     List.length (row_items tr) <> 4) /\
  (forall e,
     (parse_row tr st log).1 = Raise e ->
     (e = ValueError \/ e = AttributeError \/ e = KeyError)
     /\ (parse_row tr st log).2 = log).
Proof.
  destruct (parse_row_cases tr)
    as [(e & He & Hrow)|(entry & d & Hlen & _ & Hrow)]; rewrite Hrow; simpl.
  - split.
    + split.
      * intros [= ->]. destruct He as [[_ H]|[[H|H] _]]; done.
      * intros Hlen. destruct He as [[-> _]|[_ H]]; done.
    + intros e' [= <-]. split; [|done].
      destruct He as [[-> _]|[[->| ->] _]]; auto.
  - split; [|done]. split; [done|]. by intros H.
Qed.

(** X5: the read-only flag is read and dropped: two rows that differ only
    in their visibility cells, with the same required flag, give the same
    outcome. *)
Theorem readonly_ignored tr1 tr2 vis1 vis2 attribute_td type_td desc_td
    ro1 ro2 rq st log :
  row_items tr1 = [vis1; attribute_td; type_td; desc_td] ->
  row_items tr2 = [vis2; attribute_td; type_td; desc_td] ->
  visibility vis1 = OK (ro1, rq) ->
  visibility vis2 = OK (ro2, rq) ->
  parse_row tr1 st log = parse_row tr2 st log.
Proof.
  intros H1 H2 Hv1 Hv2. unfold parse_row. fold (row_items tr1) (row_items tr2).
  rewrite H1, H2. cbv iota. by rewrite Hv1, Hv2.
Qed.

Lemma parse_row_resolve_raises tr vis_td attribute_td type_td desc_td
    name_code ro rq e st log log' :
  row_items tr = [vis_td; attribute_td; type_td; desc_td] ->
  Bs4.find "code" attribute_td = Some name_code ->
  visibility vis_td = OK (ro, rq) ->
  resolve_type type_td log = (Raise e, log') ->
  parse_row tr st log = (Raise e, log').
Proof.
  intros Hrow Hname Hvis Hty. unfold parse_row. fold (row_items tr).
  rewrite Hrow. cbv iota. rewrite Hname, Hvis.
  unfold bind at 1. simpl getattr. unfold ret at 1.
  unfold bind at 1. unfold lift at 1.
  unfold bind at 1. by rewrite Hty.
Qed.

(** X6: a type cell that spells the array pattern without a hyperlink in
    its code span makes the row raise [AttributeError]; with a hyperlink
    that has no [href] the row raises [KeyError]; in both cases nothing
    is logged. *)
Theorem array_without_target_raises tr vis_td attribute_td type_td desc_td
    name_code type_code ro rq st log :
  row_items tr = [vis_td; attribute_td; type_td; desc_td] ->
  Bs4.find "code" attribute_td = Some name_code ->
  visibility vis_td = OK (ro, rq) ->
  Bs4.find "code" type_td = Some type_code ->
  Bs4.strings type_code = ["Array["; "Object"; "]"] ->
  (Bs4.find "a" type_code = None ->
   parse_row tr st log = (Raise AttributeError, log)) /\
  (forall a,
     Bs4.find "a" type_code = Some a ->
     Bs4.get (Bs4.attrs a) "href" = None ->
     parse_row tr st log = (Raise KeyError, log)).
Proof.
  intros Hrow Hname Hvis Hcode Hpat. split.
  - intros Ha. eapply parse_row_resolve_raises; try done.
    by eapply resolve_type_no_link.
  - intros a Ha Hh. eapply parse_row_resolve_raises; try done.
    by eapply resolve_type_no_href.
Qed.

(** X7: the outcome of [parse_attributes_table] does not depend on the
    log it starts from, and it only appends to that log. *)
Theorem parse_attributes_table_frame table log :
  (parse_attributes_table table log).1 = (parse_attributes_table table []).1 /\
  (parse_attributes_table table log).2
  = log ++ (parse_attributes_table table []).2.
Proof.
  unfold parse_attributes_table.
  destruct (Bs4.find "tbody" table) as [tbody|].
  2:{ simpl. by rewrite app_nil_r. }
  unfold bind at 1 3 5 7. simpl getattr. unfold ret at 1 3 5 7. cbv beta iota.
  destruct (rows_cases (Bs4.find_all "tr" tbody))
    as [(e & d & _ & Hrows)|(d & _ & Hrows)].
  - by rewrite !(bind_Raise _ _ _ _ _ (Hrows _ _)).
  - by rewrite !(bind_OK _ _ _ _ _ (Hrows _ _)).
Qed.

End Outcomes.

Lemma parse_row_errors_witness :
  (parse_row nameless_row no_locals []).2 = [].
Proof.
  exact (proj2 (proj2 (parse_row_errors nameless_row no_locals [])
                  AttributeError eq_refl)).
Defined.

Lemma readonly_ignored_witness :
  parse_row readonly_money_row no_locals [] = parse_row money_row no_locals [].
Proof.
  exact (readonly_ignored readonly_money_row money_row _ _ _ _ _
           true false false no_locals [] eq_refl eq_refl eq_refl eq_refl).
Defined.

Lemma array_without_target_raises_witness :
  parse_row unlinked_row no_locals [] = (Raise AttributeError, []).
Proof.
  exact (proj1
    (array_without_target_raises unlinked_row _ _ _ _ _ _ false false
       no_locals [] eq_refl eq_refl eq_refl eq_refl eq_refl) eq_refl).
Defined.

(** ** What a parsed table holds *)

Section TableContents.

Context {builtins : Builtins}.

(** X8: when the table parser returns, the required list is the names of
    the rows flagged required, in document order, one per such row. *)
Theorem table_required_order table tbody log props req log' :
  parse_attributes_table table log = (OK (props, req), log') ->
  Bs4.find "tbody" table = Some tbody ->
  req = map row_name (List.filter row_required (Bs4.find_all "tr" tbody)).
Proof.
  intros Hrun Htbody.
  destruct (table_inv _ _ _ _ _ Hrun) as (tb & Htb & Hall & _ & ->).
  rewrite Htbody in Htb. injection Htb as <-.
  by rewrite rows_done_required.
Qed.

(** X9: when the table parser returns, the keys of the property map are
    exactly the names of the rows. *)
Theorem table_property_keys table tbody log props req log' :
  parse_attributes_table table log = (OK (props, req), log') ->
  Bs4.find "tbody" table = Some tbody ->
  forall name : option string,
    is_Some (props !! name) <->
    In name (map row_name (Bs4.find_all "tr" tbody)).
Proof.
  intros Hrun Htbody name.
  destruct (table_inv _ _ _ _ _ Hrun) as (tb & Htb & Hall & -> & _).
  rewrite Htbody in Htb. injection Htb as <-.
  rewrite rows_done_keys by done. simpl. rewrite lookup_empty.
  split; [intros [[? [=]]|H]; done | by right].
Qed.

(** X10: when two rows carry the same name the later one wins: the entry
    kept under a name is the one written by the last row of that name. *)
Theorem last_row_wins table tbody log props req log' pre tr post :
  parse_attributes_table table log = (OK (props, req), log') ->
  Bs4.find "tbody" table = Some tbody ->
  Bs4.find_all "tr" tbody = pre ++ tr :: post ->
  Forall (fun later => row_name later <> row_name tr) post ->
  (exists e, row_entry tr = Some e) /\
  props !! row_name tr = row_entry tr /\
  forall st l,
    exists st1 l1,
      parse_row tr st l = (OK st1, l1)
      /\ st_properties st1 !! row_name tr = row_entry tr.
Proof.
  intros Hrun Htbody Hrows Hpost.
  destruct (table_inv _ _ _ _ _ Hrun) as (tb & Htb & Hall & -> & _).
  rewrite Htbody in Htb. injection Htb as <-. rewrite Hrows in *.
  apply Forall_app in Hall as [_ Hall].
  apply Forall_cons in Hall as [(e & He & _) _].
  split; [by exists e|]. split.
  - rewrite (cons_middle tr pre post), app_assoc.
    unfold rows_done at 1. rewrite foldl_app.
    fold (rows_done no_locals (pre ++ [tr])).
    fold (rows_done (rows_done no_locals (pre ++ [tr])) post).
    rewrite rows_done_other by done.
    rewrite rows_done_snoc, He. simpl. apply lookup_insert_eq.
  - intros st l.
    destruct (parse_row_cases tr)
      as [(x & _ & Hrow)|(entry & d & _ & _ & Hrow)].
    + unfold row_entry in He. by rewrite Hrow in He.
    + rewrite (row_entry_returns _ _ _ Hrow). eexists _, _.
      split; [apply Hrow|]. simpl. apply lookup_insert_eq.
Qed.

(** X11: every entry of a parsed table is well formed: a null type has no
    items and no format; an array has a reference of the form
    ["#/components/schemas/<name>"], with a name that starts with no
    marker, and no format; any other type is ["string"], ["integer"],
    ["boolean"] or ["number"], has no items, and a format that is not
    empty when it is written. *)
Theorem table_entries_well_formed table log props req log' :
  parse_attributes_table table log = (OK (props, req), log') ->
  forall name e, props !! name = Some e -> well_formed_entry e.
Proof.
  intros Hrun name e.
  destruct (table_inv _ _ _ _ _ Hrun) as (tb & _ & Hall & -> & _).
  apply (rows_done_well_formed _ no_locals Hall). simpl.
  apply map_Forall_empty.
Qed.

End TableContents.

Lemma table_required_order_witness :
  [Some "id"; Some "id"] = map row_name (List.filter row_required all_rows).
Proof.
  exact (table_required_order all_rows_table (Bs4.Tag "tbody" [] all_rows)
           [] (table_properties all_rows_table) [Some "id"; Some "id"]
           _ eq_refl eq_refl).
Defined.

Lemma table_property_keys_witness :
  is_Some (table_properties all_rows_table !! Some "lines") <->
  In (Some "lines") (map row_name all_rows).
Proof.
  exact (table_property_keys all_rows_table (Bs4.Tag "tbody" [] all_rows)
           [] (table_properties all_rows_table) (table_required all_rows_table)
           _ eq_refl eq_refl (Some "lines")).
Defined.

Lemma last_row_wins_witness :
  table_properties all_rows_table !! Some "id"
  = Some {| prop_type := Some "string"; prop_description := "The id, again";
            prop_items := None; prop_format := None |}.
Proof.
  exact (proj1 (proj2
    (last_row_wins all_rows_table (Bs4.Tag "tbody" [] all_rows) []
       (table_properties all_rows_table) (table_required all_rows_table) _
       [id_row; lines_row; money_row; odd_row] id_again_row []
       eq_refl eq_refl eq_refl (List.Forall_nil _)))).
Defined.

Lemma table_entries_well_formed_witness :
  well_formed_entry
    {| prop_type := Some "array"; prop_description := "Invoice lines";
       prop_items := Some "#/components/schemas/Line"; prop_format := None |}.
Proof.
  exact (table_entries_well_formed all_rows_table []
           (table_properties all_rows_table) (table_required all_rows_table)
           _ eq_refl (Some "lines") _ eq_refl).
Defined.

(** ** Rows at any depth *)

Section Depth.

Context {builtins : Builtins}.

Lemma descendants_subtree (p : list nat) : forall n c,
  p <> [] -> subtree n p = Some c -> In c (Bs4.descendants n).
Proof.
  induction p as [|i q IH]; intros n c Hp Hsub; [done|].
  simpl in Hsub.
  destruct (nth_error (Bs4.children n) i) as [ch|] eqn:Hch; [|done].
  destruct n as [s|nm a cs]; [by destruct i|].
  simpl in *. apply in_flat_map. exists ch.
  split; [by eapply nth_error_In|].
  destruct q as [|j q].
  - injection Hsub as ->. by left.
  - right. by apply IH.
Qed.

(** X12: [find_all] searches at every depth, so each [tr] element below
    the table body, also one inside a cell, is parsed as a row of the
    table; when such an element has not four element children the table
    parser raises. *)
Theorem nested_row_is_parsed table tbody p tr log :
  Bs4.find "tbody" table = Some tbody ->
  p <> [] ->
  subtree tbody p = Some tr ->
  Bs4.named "tr" tr = true ->
  In tr (Bs4.find_all "tr" tbody) /\
  (List.length (row_items tr) <> 4 ->
   exists e log', parse_attributes_table table log = (Raise e, log')).
Proof.
  intros Htbody Hp Hsub Hnamed.
  assert (Hin : In tr (Bs4.find_all "tr" tbody)).
  { unfold Bs4.find_all. apply filter_In. split; [|done].
    by eapply descendants_subtree. }
  split; [exact Hin|]. intros Hlen.
  unfold parse_attributes_table. rewrite Htbody.
  unfold bind at 1. simpl getattr. unfold ret at 1. cbv beta iota.
  destruct (for_each_raises parse_row tr) with
    (xs := Bs4.find_all "tr" tbody) (a := no_locals) (s := log)
    as (e & log' & Hrun); [|exact Hin|].
  - intros st l.
    destruct (parse_row_cases tr) as [(e & _ & Hrow)|(? & ? & Hfour & _)];
      [|done].
    eexists _, _. apply Hrow.
  - exists e, log'. by rewrite (bind_Raise _ _ _ _ _ Hrun).
Qed.

End Depth.

Lemma nested_row_is_parsed_witness :
  exists e log', parse_attributes_table nesting_table [] = (Raise e, log').
Proof.
  refine (proj2
    (nested_row_is_parsed nesting_table
       (Bs4.Tag "tbody" [] [id_row; nesting_row]) [1; 3; 0; 0; 0]
       (Bs4.Tag "tr" [] [td [text "rate"]; td [text "21"]]) []
       eq_refl _ eq_refl eq_refl) _).
  - discriminate.
  - simpl. lia.
Defined.

(** ** Runs without and with collisions *)

Section Runs.

Lemma insert_all_ok (its : list (string * ObjectSchema)) :
  forall reg : gmap string ObjectSchema,
    NoDup its.*1 ->
    (forall n, n ∈ its.*1 -> reg !! n = None) ->
    for_each (fun it _ => insert_schema it) its tt reg
    = (OK tt, list_to_map its ∪ reg).
Proof.
  induction its as [|[k d] its IH]; intros reg Hnd Hfresh.
  - simpl. by rewrite (left_id_L ∅ (∪)).
  - simpl in *. apply NoDup_cons in Hnd as [Hk Hnd].
    unfold bind, insert_schema.
    rewrite (Hfresh k) by by left.
    rewrite IH; [|done|].
    + f_equal. rewrite <- insert_union_r, insert_union_l; [done|].
      by apply not_elem_of_list_to_map_1.
    + intros n Hn. rewrite lookup_insert_ne; [|by intros ->].
      apply Hfresh. by right.
Qed.

Lemma insert_all_raises (its : list (string * ObjectSchema)) :
  forall reg : gmap string ObjectSchema,
    ~ (NoDup its.*1 /\ forall n, n ∈ its.*1 -> reg !! n = None) ->
    exists reg',
      for_each (fun it _ => insert_schema it) its tt reg
      = (Raise AssertionError, reg').
Proof.
  induction its as [|[k d] its IH]; intros reg Hbad.
  - destruct Hbad. split; [constructor|]. intros n Hn. by apply elem_of_nil in Hn.
  - simpl. unfold bind, insert_schema.
    destruct (reg !! k) as [old|] eqn:Hk; [by eexists|].
    apply IH. intros [Hnd Hfresh]. apply Hbad. simpl. split.
    + apply NoDup_cons. split; [|done].
      intros Hin. specialize (Hfresh k Hin). by rewrite lookup_insert_eq in Hfresh.
    + intros n Hn. apply elem_of_cons in Hn as [->|Hn]; [done|].
      specialize (Hfresh n Hn).
      destruct (decide (k = n)) as [->|Hne].
      * by rewrite lookup_insert_eq in Hfresh.
      * by rewrite lookup_insert_ne in Hfresh.
Qed.

Lemma aggregate_entries pages (reg : gmap string ObjectSchema) :
  aggregate pages reg
  = for_each (fun it _ => insert_schema it) (page_entries pages) tt reg.
Proof.
  revert reg. induction pages as [|pg pages IH]; intros reg; [done|].
  unfold aggregate, page_entries in *. simpl.
  rewrite for_each_app. unfold bind.
  assert (Hpg : aggregate_page pg reg
                = for_each (fun it _ => insert_schema it) (default [] pg) tt reg).
  { by destruct pg as [[|it its]|]. }
  rewrite Hpg.
  destruct (for_each (fun it _ => insert_schema it) (default [] pg) tt reg)
    as [[[]|e] reg1]; [apply IH|done].
Qed.

Lemma main_distinct pages :
  NoDup (page_entries pages).*1 ->
  main pages
  = (OK (openapi (list_to_map (page_entries pages))),
     list_to_map (page_entries pages)).
Proof.
  intros Hnd. unfold main. rewrite aggregate_entries.
  rewrite insert_all_ok; [|done|by intros].
  by rewrite (right_id_L ∅ (∪)).
Qed.

Lemma main_collision pages :
  ~ NoDup (page_entries pages).*1 ->
  exists reg, main pages = (Raise AssertionError, reg).
Proof.
  intros Hbad. unfold main. rewrite aggregate_entries.
  destruct (insert_all_raises (page_entries pages) ∅) as [reg Hrun].
  - by intros [Hnd _].
  - exists reg. by rewrite Hrun.
Qed.

(** X13: the run pushes a document exactly when the names brought by the
    pages are pairwise distinct; the registry then holds every pair the
    pages brought, and the document is built on it.  Otherwise the run
    raises [AssertionError], and no other exception. *)
Theorem main_returns_iff_distinct pages :
  (NoDup (page_entries pages).*1 ->
   main pages
   = (OK (openapi (list_to_map (page_entries pages))),
      list_to_map (page_entries pages))) /\
  (~ NoDup (page_entries pages).*1 ->
   exists reg, main pages = (Raise AssertionError, reg)) /\
  (returns (main pages).1 <-> NoDup (page_entries pages).*1).
Proof.
  split; [apply main_distinct|]. split; [apply main_collision|].
  destruct (decide (NoDup (page_entries pages).*1)) as [Hnd|Hbad].
  - by rewrite (main_distinct _ Hnd).
  - destruct (main_collision _ Hbad) as [reg ->]. simpl. tauto.
Qed.

Lemma main_returns_iff_distinct_witness :
  main sample_pages
  = (OK (openapi (list_to_map (page_entries sample_pages))),
     list_to_map (page_entries sample_pages)).
Proof.
  apply (proj1 (main_returns_iff_distinct sample_pages)).
  apply (bool_decide_unpack _). by vm_compute.
Defined.

(** X14: when the names are pairwise distinct, the order in which the
    pages are visited does not matter: the registry and the pushed
    document are the same. *)
Theorem main_order_irrelevant pages pages' :
  Permutation pages pages' ->
  NoDup (page_entries pages).*1 ->
  main pages = main pages'.
Proof.
  intros Hperm Hnd.
  assert (Hentries : page_entries pages ≡ₚ page_entries pages')
    by by apply Permutation_flat_map.
  assert (Hnd' : NoDup (page_entries pages').*1) by by rewrite <- Hentries.
  rewrite !main_distinct by done.
  by rewrite (list_to_map_proper (M := gmap string) _ _ Hnd Hentries).
Qed.

Lemma main_order_irrelevant_witness :
  main sample_pages = main (rev sample_pages).
Proof.
  apply main_order_irrelevant.
  - apply Permutation_rev.
  - apply (bool_decide_unpack _). by vm_compute.
Defined.

(** X15: when the run pushes a document, every schema a page brought is
    found in it, under ["components"], ["schemas"] and its name. *)
Theorem pushed_document_lookup pages doc reg name sch :
  main pages = (OK doc, reg) ->
  In (name, sch) (page_entries pages) ->
  schema_in doc name = Some (value_of_object sch).
Proof.
  intros Hrun Hin.
  destruct (decide (NoDup (page_entries pages).*1)) as [Hnd|Hbad].
  - rewrite (main_distinct _ Hnd) in Hrun. injection Hrun as <- <-.
    change (schema_in (openapi (list_to_map (page_entries pages))) name)
      with (member (value_of_registry (list_to_map (page_entries pages))) name).
    rewrite dict_get_registry. apply list_elem_of_In in Hin.
    by rewrite (elem_of_list_to_map_1 (M := gmap string) _ _ _ Hnd Hin).
  - destruct (main_collision _ Hbad) as [reg' Hrun']. congruence.
Qed.

Lemma pushed_document_lookup_witness :
  schema_in (openapi (list_to_map (page_entries sample_pages)))
    "expense.Attributes"
  = Some (value_of_object (sample_object "number")).
Proof.
  refine (pushed_document_lookup sample_pages _
            (list_to_map (page_entries sample_pages))
            "expense.Attributes" (sample_object "number") eq_refl _).
  simpl. tauto.
Defined.

End Runs.

(** ** Pages *)

Section Pages.

Context {builtins : Builtins}.

Lemma node_ind_nested (P : Bs4.node -> Prop) :
  (forall s, P (Bs4.NavigableString s)) ->
  (forall nm a cs, Forall P cs -> P (Bs4.Tag nm a cs)) ->
  forall n, P n.
Proof.
  intros Hs Ht. fix IH 1. intros [s|nm a cs]; [apply Hs|].
  apply Ht. induction cs as [|c cs IHcs]; constructor; [apply IH|apply IHcs].
Qed.

Lemma subtree_app (p q : list nat) : forall n,
  subtree n (p ++ q) = subtree n p ≫= fun c => subtree c q.
Proof.
  induction p as [|i p IH]; intros n; [done|].
  simpl. destruct (nth_error (Bs4.children n) i); [apply IH|done].
Qed.

Lemma subtree_parent n p c :
  subtree n p = Some c -> is_Some (subtree n (List.removelast p)).
Proof.
  destruct (decide (p = [])) as [->|Hp]; [by eexists|].
  rewrite (app_removelast_last 0 Hp) at 1. rewrite subtree_app.
  destruct (subtree n (List.removelast p)); [by eexists|done].
Qed.

Lemma first_in_sound pred rec (cs : list Bs4.node) : forall i p,
  Forall (fun c => forall q, rec c = Some q ->
                   q <> [] /\ exists d, subtree c q = Some d /\ pred d = true) cs ->
  Nav.first_in pred rec cs i = Some p ->
  exists j c q,
    p = (i + j) :: q /\ nth_error cs j = Some c /\
    exists d, subtree c q = Some d /\ pred d = true.
Proof.
  induction cs as [|c cs IH]; intros i p Hall H; [done|].
  apply Forall_cons in Hall as [Hc Hall]. simpl in H.
  destruct (pred c) eqn:Hp.
  - injection H as <-. exists 0, c, []. rewrite Nat.add_0_r. eauto.
  - destruct (rec c) as [q|] eqn:Hrec.
    + injection H as <-. destruct (Hc q eq_refl) as (_ & d & Hd & Hpd).
      exists 0, c, q. rewrite Nat.add_0_r. eauto.
    + destruct (IH _ _ Hall H) as (j & c' & q & -> & Hnth & Hd).
      exists (S j), c', q. split; [f_equal; lia|]. eauto.
Qed.

(** A path returned by [find_path] is not empty and leads to an element
    that passes the test. *)
Lemma find_path_sound pred n : forall p,
  Nav.find_path pred n = Some p ->
  p <> [] /\ exists d, subtree n p = Some d /\ pred d = true.
Proof.
  induction n as [s|nm a cs IH] using node_ind_nested; intros p H; [done|].
  simpl in H.
  destruct (first_in_sound _ _ _ _ _ IH H) as (j & c & q & -> & Hnth & d & Hd & Hp).
  split; [done|]. exists d. simpl. by rewrite Hnth.
Qed.

Lemma index_from_sound pred (l : list Bs4.node) : forall i j,
  Nav.index_from pred l i = Some j ->
  exists k c, j = i + k /\ nth_error l k = Some c /\ pred c = true.
Proof.
  induction l as [|c l IH]; intros i j H; [done|].
  simpl in H. destruct (pred c) eqn:Hp.
  - injection H as <-. exists 0, c. by rewrite Nat.add_0_r.
  - destruct (IH _ _ H) as (k & c' & -> & Hk & Hc).
    exists (S k), c'. split; [lia|done].
Qed.

Lemma next_siblings_nth root p first following k c :
  Nav.next_siblings root p = (first, following) ->
  nth_error following k = Some c ->
  subtree root (List.removelast p ++ [first + k]) = Some c.
Proof.
  unfold Nav.next_siblings. destruct p as [|i p].
  { intros [= <- <-]. by destruct k. }
  destruct (subtree root (List.removelast (i :: p))) as [parent|] eqn:Hpar.
  2:{ intros [= <- <-]. by destruct k. }
  intros [= <- <-] Hk.
  rewrite subtree_app, Hpar. rewrite nth_error_skipn in Hk.
  simpl in *. by rewrite Hk.
Qed.

(** A path returned by [find_next_sibling] leads to an element. *)
Lemma find_next_sibling_sound nm root p q :
  Nav.find_next_sibling nm root p = Some q ->
  exists c, subtree root q = Some c /\ Bs4.named nm c = true.
Proof.
  unfold Nav.find_next_sibling.
  destruct (Nav.next_siblings root p) as [first following] eqn:Hsib.
  destruct (Nav.index_from _ _ _) as [j|] eqn:Hj; [|done].
  intros [= <-].
  destruct (index_from_sound _ _ _ _ Hj) as (k & c & -> & Hk & Hc).
  exists c. split; [|done]. by eapply next_siblings_nth.
Qed.

(** [parse_page] up to the test on [attributes_heading]. *)
Lemma parse_page_start soup url log :
  parse_page soup url log =
    match article_of soup with
    | None => (Raise AttributeError, log ++ [request_record url])
    | Some article =>
        match heading_text soup article with
        | None => (Raise AttributeError, log ++ [request_record url])
        | Some group_name =>
            match attributes_of soup article with
            | None => (OK None, log ++ [request_record url])
            | Some attributes_heading =>
                bind (parse_sections soup group_name attributes_heading)
                  (fun schemas => ret (Some schemas))
                  (log ++ [request_record url])
            end
        end
    end.
Proof.
  unfold parse_page, article_of, heading_text, attributes_of.
  unfold bind at 1. unfold page_info at 1. fold (request_record url).
  destruct (Nav.find_path (Nav.has_class "api-article") soup) as [article|] eqn:Ha;
    [|done].
  unfold bind at 1. simpl getattr. unfold ret at 1.
  destruct (find_path_sound _ _ _ Ha) as (_ & tag & Htag & _).
  destruct (subtree_parent _ _ _ Htag) as [parent Hpar].
  rewrite Hpar. unfold bind at 1. simpl getattr. unfold ret at 1. simpl mbind.
  destruct (Bs4.find "h1" parent) as [h1|]; [|done].
  unfold bind at 1. simpl getattr. unfold ret at 1. simpl mbind.
  rewrite Htag. unfold bind at 1. simpl getattr. unfold ret at 1. simpl mbind.
  by destruct (Nav.find_path (Nav.has_id "attributes") tag).
Qed.

Lemma parse_sections_no_div soup group_name heading log :
  Nav.find_next_sibling "div" soup heading = None ->
  parse_sections soup group_name heading log = (Raise AttributeError, log).
Proof. intros H. unfold parse_sections. by rewrite H. Qed.

Lemma parse_sections_no_notes soup group_name heading attribs_div log :
  Nav.find_next_sibling "div" soup heading = Some attribs_div ->
  Nav.find_next_sibling "div" soup attribs_div = None ->
  parse_sections soup group_name heading log = (Raise AttributeError, log).
Proof.
  intros Hdiv Hnotes. unfold parse_sections. rewrite Hdiv.
  destruct (find_next_sibling_sound _ _ _ _ Hdiv) as (tag & Htag & _).
  unfold bind at 1. simpl getattr. unfold ret at 1. cbv beta iota.
  rewrite Htag. unfold bind at 1. simpl getattr. unfold ret at 1.
  cbv beta iota. by rewrite Hnotes.
Qed.

Lemma parse_page_schemas_inv group_name table l schemas l' :
  parse_page_schemas group_name table l = (OK schemas, l') ->
  exists name props req,
    parse_attributes_table table l = (OK (props, req), l') /\
    to_camel_case group_name = OK name /\
    schemas
    = [ (name +:+ ".Attributes",
         {| obj_type := "object";
            properties := props;
            required := match req with [] => None | _ => Some req end |}) ].
Proof.
  unfold parse_page_schemas. unfold bind at 1.
  destruct (parse_attributes_table table l) as [[[props req]|e] l1]; [|done].
  unfold bind at 1. unfold lift at 1.
  destruct (to_camel_case group_name) as [name|e]; [|done].
  unfold ret. intros [= <- <-]. by eexists _, _, _.
Qed.

(** When the sections of a page are parsed, the table was found and
    parsed from an empty log of its own. *)
Lemma parse_sections_inv soup group_name heading log schemas log' :
  parse_sections soup group_name heading log = (OK schemas, log') ->
  exists table d,
    parse_page_schemas group_name table [] = (OK schemas, d) /\
    exists found requests,
      log' = log ++ [Rec (LogInfo "Found subobjects to parse " found);
                     InfoTags "Found requests to parse " requests]
                 ++ map Rec d.
Proof.
  unfold parse_sections.
  destruct (Nav.find_next_sibling "div" soup heading) as [dp|]; [|done].
  unfold bind at 1. simpl getattr. unfold ret at 1. cbv beta iota.
  destruct (subtree soup dp) as [dt|]; [|done].
  unfold bind at 1. simpl getattr. unfold ret at 1. cbv beta iota.
  destruct (Nav.find_next_sibling "div" soup dp) as [np|]; [|done].
  unfold bind at 1. simpl getattr. unfold ret at 1. cbv beta iota zeta.
  unfold bind at 1. unfold page_info at 1.
  unfold bind at 1. unfold page_info_tags at 1.
  destruct (Bs4.find "table" dt) as [table|]; [|done].
  unfold bind at 1. simpl getattr. unfold ret at 1. cbv beta iota.
  unfold in_page.
  destruct (parse_page_schemas group_name table []) as [[s|e] d] eqn:Hrun;
    [|done].
  intros [= <- <-]. exists table, d. split; [done|].
  eexists _, _. by rewrite <- !app_assoc.
Qed.

(** X16: a page whose article has no element with the id
    ["attributes"] gives [None] and logs only the request; the loop then
    leaves the registry as it was and goes on. *)
Theorem page_without_attributes soup url article group_name log
    (reg : gmap string ObjectSchema) :
  article_of soup = Some article ->
  heading_text soup article = Some group_name ->
  attributes_of soup article = None ->
  parse_page soup url log = (OK None, log ++ [request_record url]) /\
  crawl_page (url, soup) (log, reg)
  = (OK tt, (log ++ [request_record url], reg)).
Proof.
  intros Ha Hh Hattr.
  assert (Hpage : parse_page soup url log
                  = (OK None, log ++ [request_record url])).
  { by rewrite parse_page_start, Ha, Hh, Hattr. }
  split; [exact Hpage|]. unfold crawl_page. simpl. by rewrite Hpage.
Qed.

(** X17: a page without an element of class ["api-article"] raises
    [AttributeError]; so does a page whose article's parent holds no
    [h1], whether or not the article has an attributes section.  Only the
    request is logged. *)
Theorem page_structure_errors soup url log :
  (article_of soup = None ->
   parse_page soup url log
   = (Raise AttributeError, log ++ [request_record url])) /\
  (forall article,
     article_of soup = Some article ->
     heading_text soup article = None ->
     parse_page soup url log
     = (Raise AttributeError, log ++ [request_record url])).
Proof.
  split.
  - intros Ha. by rewrite parse_page_start, Ha.
  - intros article Ha Hh. by rewrite parse_page_start, Ha, Hh.
Qed.

(** X18: a page whose attributes heading is followed by no [div], or
    whose attributes [div] is followed by no further [div], raises
    [AttributeError] before the table is read: only the request is
    logged. *)
Theorem page_without_sibling_divs soup url article group_name heading log :
  article_of soup = Some article ->
  heading_text soup article = Some group_name ->
  attributes_of soup article = Some heading ->
  Nav.find_next_sibling "div" soup heading = None
  \/ (exists attribs_div,
        Nav.find_next_sibling "div" soup heading = Some attribs_div
        /\ Nav.find_next_sibling "div" soup attribs_div = None) ->
  parse_page soup url log
  = (Raise AttributeError, log ++ [request_record url]).
Proof.
  intros Ha Hh Hattr Hdiv.
  rewrite parse_page_start, Ha, Hh, Hattr.
  apply bind_Raise. destruct Hdiv as [Hdiv|(dp & Hdiv & Hnotes)].
  - by apply parse_sections_no_div.
  - by eapply parse_sections_no_notes.
Qed.

(** X19: when [parse_page] returns a dictionary, it has one key: what
    [to_camel_case] returns for the text of the [h1] of the article's
    parent, followed by [".Attributes"]; its schema has type ["object"],
    a required list that is absent rather than empty, made of keys of the
    properties, and well-formed property entries. *)
Theorem page_schema_shape soup url log schemas log' :
  parse_page soup url log = (OK (Some schemas), log') ->
  exists article group_name name sch,
    article_of soup = Some article /\
    heading_text soup article = Some group_name /\
    to_camel_case group_name = OK name /\
    schemas = [(name +:+ ".Attributes", sch)] /\
    obj_type sch = "object" /\
    required sch <> Some [] /\
    (forall req n, required sch = Some req -> In n req ->
                   is_Some (properties sch !! n)) /\
    (forall n e, properties sch !! n = Some e -> well_formed_entry e).
Proof.
  rewrite parse_page_start.
  destruct (article_of soup) as [article|] eqn:Ha; [|done].
  destruct (heading_text soup article) as [g|] eqn:Hh; [|done].
  destruct (attributes_of soup article) as [heading|]; [|done].
  unfold bind.
  destruct (parse_sections soup g heading _) as [[s|e] l1] eqn:Hsec; [|done].
  unfold ret. intros [= <- <-].
  destruct (parse_sections_inv _ _ _ _ _ _ Hsec) as (table & d & Hrun & _).
  destruct (parse_page_schemas_inv _ _ _ _ _ Hrun)
    as (name & props & req & Htable & Hname & ->).
  destruct (table_inv _ _ _ _ _ Htable) as (tbody & _ & Hall & -> & ->).
  exists article, g, name. eexists. split; [done|]. split; [done|].
  split; [done|]. split; [reflexivity|]. split; [done|]. simpl. split.
  { by destruct (st_required _). }
  split.
  - intros req n Hreq Hn.
    assert (Hin : In n (st_required (rows_done no_locals (Bs4.find_all "tr" tbody)))).
    { destruct (st_required _); [done|]. by injection Hreq as <-. }
    rewrite rows_done_required in Hin by done. simpl in Hin.
    apply rows_done_keys; [done|]. right.
    apply in_map_iff in Hin as (tr & <- & Htr). apply in_map.
    by apply filter_In in Htr as [? _].
  - intros n e. apply (rows_done_well_formed _ no_locals Hall).
    apply map_Forall_empty.
Qed.

End Pages.

Example invoice_page_parsed :
  parse_page invoice_page "/api/v3/invoices" []
  = (OK (Some [ ("Invoice.Attributes",
                 {| obj_type := "object";
                    properties := table_properties (sample_table [id_row; money_row]);
                    required := Some [Some "id"] |}) ]),
     [ request_record "/api/v3/invoices";
       Rec (LogInfo "Found subobjects to parse "
              (ArgTag (Bs4.Tag "h3" [] [text "Lines"])));
       InfoTags "Found requests to parse " [Bs4.Tag "h2" [] [text "Index"]];
       Rec (LogError "Unknow type " (ArgStr "Money")) ]).
Proof. reflexivity. Qed.

Lemma page_without_attributes_witness :
  parse_page action_page "/api/v3/messages" []
  = (OK None, [request_record "/api/v3/messages"]).
Proof.
  exact (proj1
    (page_without_attributes action_page "/api/v3/messages" [0; 0; 0; 3]
       "Messages" [] ∅ eq_refl eq_refl eq_refl)).
Defined.

Lemma page_structure_errors_witness :
  parse_page bare_page "/api/v3" []
  = (Raise AttributeError, [request_record "/api/v3"]).
Proof.
  exact (proj1 (page_structure_errors bare_page "/api/v3" []) eq_refl).
Defined.

Lemma page_without_sibling_divs_witness :
  parse_page short_page "/api/v3/todos" []
  = (Raise AttributeError, [request_record "/api/v3/todos"]).
Proof.
  refine (page_without_sibling_divs short_page "/api/v3/todos" [0; 0; 0; 3]
            "Todos" [0; 0; 0; 3; 0] [] eq_refl eq_refl eq_refl _).
  right. exists [0; 0; 0; 3; 1]. by split.
Defined.

Lemma page_schema_shape_witness :
  exists article group_name name sch,
    article_of expense_page = Some article /\
    heading_text expense_page article = Some group_name /\
    to_camel_case group_name = OK name /\
    page_result expense_page "/api/v3/expenses" = [(name +:+ ".Attributes", sch)] /\
    obj_type sch = "object" /\
    required sch <> Some [] /\
    (forall req n, required sch = Some req -> In n req ->
                   is_Some (properties sch !! n)) /\
    (forall n e, properties sch !! n = Some e -> well_formed_entry e).
Proof.
  exact (page_schema_shape expense_page "/api/v3/expenses" []
           (page_result expense_page "/api/v3/expenses") _ eq_refl).
Defined.

(** ** The loop over the pages *)

Section Crawl.

Context {builtins : Builtins}.

Lemma parse_sections_uniform soup group_name heading :
  exists r d,
    forall log, parse_sections soup group_name heading log = (r, log ++ d).
Proof.
  destruct (Nav.find_next_sibling "div" soup heading) as [dp|] eqn:H1.
  2:{ exists (Raise AttributeError), []. intros log.
      by rewrite parse_sections_no_div, app_nil_r. }
  destruct (find_next_sibling_sound _ _ _ _ H1) as (dt & Hdt & _).
  destruct (Nav.find_next_sibling "div" soup dp) as [np|] eqn:H2.
  2:{ exists (Raise AttributeError), []. intros log.
      by rewrite (parse_sections_no_notes _ _ _ _ _ H1 H2), app_nil_r. }
  destruct (Bs4.find "table" dt) as [table|] eqn:H3.
  - destruct (parse_page_schemas group_name table []) as [r d] eqn:H4.
    exists r. eexists (_ :: _ :: map Rec d). intros log.
    unfold parse_sections. rewrite H1.
    unfold bind at 1. simpl getattr. unfold ret at 1. cbv beta iota.
    rewrite Hdt. unfold bind at 1. simpl getattr. unfold ret at 1.
    cbv beta iota. rewrite H2, H3.
    unfold bind, page_info, page_info_tags, in_page. simpl getattr.
    unfold ret. rewrite H4. by rewrite <- !app_assoc.
  - exists (Raise AttributeError). eexists [_; _]. intros log.
    unfold parse_sections. rewrite H1.
    unfold bind at 1. simpl getattr. unfold ret at 1. cbv beta iota.
    rewrite Hdt. unfold bind at 1. simpl getattr. unfold ret at 1.
    cbv beta iota. rewrite H2, H3.
    unfold bind, page_info, page_info_tags. simpl getattr.
    unfold ret, raise. by rewrite <- !app_assoc.
Qed.

Lemma parse_sections_frame soup group_name heading log :
  parse_sections soup group_name heading log
  = ((parse_sections soup group_name heading []).1,
     log ++ (parse_sections soup group_name heading []).2).
Proof.
  destruct (parse_sections_uniform soup group_name heading) as (r & d & H).
  by rewrite (H log), (H []).
Qed.

(** The outcome of a page does not depend on the log it starts from. *)
Lemma parse_page_frame soup url log :
  parse_page soup url log
  = ((parse_page soup url []).1, log ++ (parse_page soup url []).2).
Proof.
  rewrite !parse_page_start.
  destruct (article_of soup) as [article|]; [|done].
  destruct (heading_text soup article) as [g|]; [|done].
  destruct (attributes_of soup article) as [heading|]; [|done].
  unfold bind.
  rewrite (parse_sections_frame _ _ _ (log ++ [request_record url])).
  rewrite (parse_sections_frame _ _ _ ([] ++ [request_record url])).
  destruct (parse_sections soup g heading []) as [[s|e] d]; simpl;
    by rewrite <- app_assoc.
Qed.

Lemma crawl_page_OK pg o log (reg : gmap string ObjectSchema) :
  (parse_page pg.2 pg.1 []).1 = OK o ->
  crawl_page pg (log, reg)
  = ((aggregate_page o reg).1,
     (log ++ (parse_page pg.2 pg.1 []).2, (aggregate_page o reg).2)).
Proof.
  intros H. unfold crawl_page. simpl. rewrite parse_page_frame, H.
  by destruct (aggregate_page o reg).
Qed.

Lemma crawl_page_Raise pg e log (reg : gmap string ObjectSchema) :
  (parse_page pg.2 pg.1 []).1 = Raise e ->
  crawl_page pg (log, reg)
  = (Raise e, (log ++ (parse_page pg.2 pg.1 []).2, reg)).
Proof.
  intros H. unfold crawl_page. simpl. by rewrite parse_page_frame, H.
Qed.

(** X20: when every page of the run parses, the loop ends as the
    aggregation of the page outcomes does: with the same result, normal
    or [AssertionError], and the same registry. *)
Theorem crawl_matches_aggregate pages outcomes log
    (reg : gmap string ObjectSchema) :
  Forall2 (fun pg o => (parse_page pg.2 pg.1 []).1 = OK o) pages outcomes ->
  (crawl pages (log, reg)).1 = (aggregate outcomes reg).1 /\
  (crawl pages (log, reg)).2.2 = (aggregate outcomes reg).2.
Proof.
  intros Hall. revert log reg.
  induction Hall as [|pg o pages outcomes Hpg _ IH]; intros log reg; [done|].
  unfold crawl, aggregate in *. simpl. unfold bind.
  rewrite (crawl_page_OK _ _ _ _ Hpg).
  destruct (aggregate_page o reg) as [[[]|e] reg1]; simpl; [apply IH|done].
Qed.

(** X21: a page that raises ends the run with its exception: the
    registry is the one the earlier pages built, and the pages after it
    are not requested, the log ending with the records of the failing
    page. *)
Theorem crawl_stops_at_failure pre pg post e log log1
    (reg reg1 : gmap string ObjectSchema) :
  crawl pre (log, reg) = (OK tt, (log1, reg1)) ->
  (parse_page pg.2 pg.1 []).1 = Raise e ->
  crawl (pre ++ pg :: post) (log, reg)
  = (Raise e, (log1 ++ (parse_page pg.2 pg.1 []).2, reg1)).
Proof.
  intros Hpre Hpg. unfold crawl in *.
  rewrite for_each_app, Hpre. simpl.
  by rewrite (bind_Raise _ _ _ _ _ (crawl_page_Raise _ _ _ _ Hpg)).
Qed.

End Crawl.

Lemma crawl_matches_aggregate_witness :
  (crawl sample_site ([], ∅)).1 = (aggregate sample_outcomes ∅).1 /\
  (crawl sample_site ([], ∅)).2.2 = (aggregate sample_outcomes ∅).2.
Proof.
  apply crawl_matches_aggregate.
  repeat constructor.
Defined.

Lemma crawl_stops_at_failure_witness :
  crawl ([("/api/v3/invoices", invoice_page)]
           ++ ("/api/v3/todos", short_page)
           :: [("/api/v3/expenses", expense_page)]) ([], ∅)
  = (Raise AttributeError,
     ((parse_page invoice_page "/api/v3/invoices" []).2
        ++ [request_record "/api/v3/todos"],
      list_to_map (page_result invoice_page "/api/v3/invoices"))).
Proof.
  exact (crawl_stops_at_failure [("/api/v3/invoices", invoice_page)]
           ("/api/v3/todos", short_page) [("/api/v3/expenses", expense_page)]
           AttributeError [] _ ∅ _ eq_refl eq_refl).
Defined.

(** ** Rows that degrade, in their table and on their page *)

Section Degraded.

Context {builtins : Builtins}.

Lemma rows_return (rows : list Bs4.node) :
  Forall row_returns rows ->
  exists d,
    forall st log,
      for_each parse_row rows st log = (OK (rows_done st rows), log ++ d).
Proof.
  induction 1 as [|tr rows (entry & Hentry & _) _ [d2 IH]].
  - exists []. intros st log. by rewrite app_nil_r.
  - destruct (parse_row_cases tr)
      as [(x & _ & Hrow)|(entry' & d1 & _ & _ & Hrow)].
    + unfold row_entry in Hentry. by rewrite Hrow in Hentry.
    + pose proof (row_entry_returns _ _ _ Hrow) as Hentry'.
      exists (d1 ++ d2). intros st log. simpl.
      rewrite (bind_OK _ _ _ _ _ (Hrow st log)).
      by rewrite IH, app_assoc, Hentry'.
Qed.

Lemma parse_sections_located soup group_name heading attribs_div
    attribs_div_tag notes_table_div table log :
  Nav.find_next_sibling "div" soup heading = Some attribs_div ->
  subtree soup attribs_div = Some attribs_div_tag ->
  Nav.find_next_sibling "div" soup attribs_div = Some notes_table_div ->
  Bs4.find "table" attribs_div_tag = Some table ->
  exists found requests,
    parse_sections soup group_name heading log
    = ((parse_page_schemas group_name table []).1,
       log ++ [Rec (LogInfo "Found subobjects to parse " found);
               InfoTags "Found requests to parse " requests]
           ++ map Rec (parse_page_schemas group_name table []).2).
Proof.
  intros H1 Hdt H2 H3. eexists _, _.
  unfold parse_sections. rewrite H1.
  unfold bind at 1. simpl getattr. unfold ret at 1. cbv beta iota.
  rewrite Hdt. unfold bind at 1. simpl getattr. unfold ret at 1.
  cbv beta iota. rewrite H2, H3.
  unfold bind, page_info, page_info_tags, in_page. simpl getattr.
  unfold ret.
  destruct (parse_page_schemas group_name table []) as [r d]. simpl.
  by rewrite <- !app_assoc.
Qed.

(** [parse_page] on a page whose navigation finds every element. *)
Lemma parse_page_located soup group_name table url log :
  page_table soup = Some (group_name, table) ->
  exists found requests,
    parse_page soup url log
    = (match (parse_page_schemas group_name table []).1 with
       | OK schemas => OK (Some schemas)
       | Raise e => Raise e
       end,
       log ++ [request_record url;
               Rec (LogInfo "Found subobjects to parse " found);
               InfoTags "Found requests to parse " requests]
           ++ map Rec (parse_page_schemas group_name table []).2).
Proof.
  unfold page_table. intros Hloc.
  destruct (article_of soup) as [article|] eqn:Ha; [|done].
  simpl in Hloc.
  destruct (heading_text soup article) as [g|] eqn:Hh; [|done].
  simpl in Hloc.
  destruct (attributes_of soup article) as [heading|] eqn:Hattr; [|done].
  simpl in Hloc.
  destruct (Nav.find_next_sibling "div" soup heading) as [dp|] eqn:H1; [|done].
  simpl in Hloc.
  destruct (subtree soup dp) as [dt|] eqn:Hdt; [|done].
  simpl in Hloc.
  destruct (Nav.find_next_sibling "div" soup dp) as [np|] eqn:H2; [|done].
  simpl in Hloc.
  destruct (Bs4.find "table" dt) as [tb|] eqn:H3; [|done].
  simpl in Hloc. injection Hloc as -> ->.
  destruct (parse_sections_located soup group_name heading dp dt np table
              (log ++ [request_record url]) H1 Hdt H2 H3)
    as (found & requests & Hsec).
  exists found, requests.
  rewrite parse_page_start, Ha, Hh, Hattr. unfold bind. rewrite Hsec.
  destruct (parse_page_schemas group_name table []) as [[s|e] d]; simpl;
    by rewrite <- !app_assoc.
Qed.

(** A row that returns, among rows that return, is kept by its table and
    by the page. *)
Lemma row_kept_intro table tbody pre tr post name rq entry records :
  (forall st l,
     parse_row tr st l = (OK (row_done st name rq entry), l ++ records)) ->
  Bs4.find "tbody" table = Some tbody ->
  Bs4.find_all "tr" tbody = pre ++ tr :: post ->
  Forall row_returns (pre ++ post) ->
  row_kept table pre post name entry records.
Proof.
  intros Hrow Htbody Hrows Hall.
  apply Forall_app in Hall as [Hpre Hpost].
  destruct (rows_return pre Hpre) as [d1 Hd1].
  destruct (rows_return post Hpost) as [d2 Hd2].
  set (st1 := row_done (rows_done no_locals pre) name rq entry).
  assert (Htable : forall log,
    parse_attributes_table table log
    = (OK (st_properties (rows_done st1 post), st_required (rows_done st1 post)),
       log ++ d1 ++ records ++ d2)).
  { intros log. unfold parse_attributes_table. rewrite Htbody.
    unfold bind at 1. simpl getattr. unfold ret at 1. cbv beta iota.
    rewrite Hrows. unfold bind. rewrite for_each_app, Hd1.
    rewrite (for_each_step _ _ _ _ _ _ _ (Hrow _ _)), Hd2.
    unfold ret. by rewrite <- !app_assoc. }
  assert (Hname : st_properties st1 !! name = Some entry)
    by apply lookup_insert_eq.
  exists (st_properties (rows_done st1 post)),
         (st_required (rows_done st1 post)), (d1 ++ records ++ d2).
  split; [exact Htable|]. split.
  { intros r Hr. apply in_or_app. right. apply in_or_app. by left. }
  split.
  { intros other Hother. apply rows_done_keys; [done|].
    apply in_app_or in Hother as [Hin|Hin].
    - left. unfold st1. simpl. apply lookup_insert_is_Some'. right.
      apply rows_done_keys; [done|]. right. by apply in_map.
    - right. by apply in_map. }
  split.
  { apply rows_done_keys; [done|]. left. by rewrite Hname. }
  split.
  { intros Hlater. by rewrite rows_done_other. }
  intros soup group_name camel url plog Hloc Hcamel.
  destruct (parse_page_located soup group_name table url plog Hloc)
    as (found & requests & Hpage).
  assert (Hschemas : parse_page_schemas group_name table []
    = (OK [ (camel +:+ ".Attributes",
             {| obj_type := "object";
                properties := st_properties (rows_done st1 post);
                required :=
                  match st_required (rows_done st1 post) with
                  | [] => None
                  | _ => Some (st_required (rows_done st1 post))
                  end |}) ],
       d1 ++ records ++ d2)).
  { unfold parse_page_schemas.
    rewrite (bind_OK _ _ _ _ _ (Htable [])). cbv beta iota.
    unfold bind, lift. rewrite Hcamel. reflexivity. }
  rewrite Hschemas in Hpage. simpl in Hpage.
  eexists. split; [exact Hpage|].
  intros r Hr. right. right. right. apply in_map.
  apply in_or_app. right. apply in_or_app. by left.
Qed.

(** C3: on a row whose type cell's code span holds a single token [tok]
    that is not a key of [SIMPLE_TYPES], the resolver yields type
    ["string"] and [tok.lower()] as format, with one error record in the
    log; the row returns normally with the property entry written (its
    ["format"] key is the lower-cased token, left out only when that is
    empty), and the loop over the rows goes on with the next row.  In a
    table whose other rows return, the table parser returns too, with the
    error record in its log and the entry among the properties, and
    [parse_page] returns the schema built from them. *)
Theorem unknown_token_row tr vis_td attribute_td type_td desc_td name_code
    type_code tok ro rq st log :
  row_items tr = [vis_td; attribute_td; type_td; desc_td] ->
  Bs4.find "code" attribute_td = Some name_code ->
  visibility vis_td = OK (ro, rq) ->
  Bs4.find "code" type_td = Some type_code ->
  Bs4.strings type_code = [tok] ->
  SIMPLE_TYPES !! tok = None ->
  let diagnostic := LogError "Unknow type " (ArgStr tok) in
  let log' := log ++ [diagnostic] in
  let entry :=
    {| prop_type := Some "string";
       prop_description := Bs4.get_text desc_td;
       prop_items := None;
       prop_format := format_key (Some (str_lower tok)) |} in
  let st' := row_done st (Bs4.string_ name_code) rq entry in
  resolve_type type_td log
  = (OK (Some "string", None, Some (str_lower tok)), log') /\
  parse_row tr st log = (OK st', log') /\
  st_properties st' !! Bs4.string_ name_code = Some entry /\
  (forall rest,
     for_each parse_row (tr :: rest) st log = for_each parse_row rest st' log') /\
  forall table tbody pre post,
    Bs4.find "tbody" table = Some tbody ->
    Bs4.find_all "tr" tbody = pre ++ tr :: post ->
    Forall row_returns (pre ++ post) ->
    row_kept table pre post (Bs4.string_ name_code) entry [diagnostic].
Proof.
  intros Hrow Hname Hvis Hcode Htok Hnone diagnostic log' entry st'.
  assert (Hres : forall l, resolve_type type_td l
                 = (OK (Some "string", None, Some (str_lower tok)),
                    l ++ [diagnostic])).
  { intros l. rewrite (resolve_type_single _ _ _ _ Hcode Htok).
    by rewrite Hnone. }
  assert (Hparse : forall s l,
    parse_row tr s l
    = (OK (row_done s (Bs4.string_ name_code) rq entry), l ++ [diagnostic])).
  { intros s l.
    exact (parse_row_resolved _ _ _ _ _ _ _ _ _ _ _ s _ _
             Hrow Hname Hvis (Hres l)). }
  split; [apply Hres|]. split; [apply Hparse|].
  split; [apply lookup_insert_eq|]. split.
  - intros rest. apply for_each_step. apply Hparse.
  - intros table tbody pre post Htbody Hrows Hall.
    by eapply row_kept_intro.
Qed.

(** C4: on a row whose type cell's code span holds a token sequence that
    is neither a single token nor the array pattern, the resolver yields
    no type, no format and no items reference, with one error record in
    the log; the row returns normally with a property entry whose type is
    null and which has neither an ["items"] nor a ["format"] key, and the
    loop over the rows goes on with the next row.  In a table whose other
    rows return, the table parser returns too, with the error record in
    its log and the null-typed entry among the properties, and
    [parse_page] returns the schema built from them. *)
Theorem unresolved_type_row tr vis_td attribute_td type_td desc_td name_code
    type_code ro rq st log :
  row_items tr = [vis_td; attribute_td; type_td; desc_td] ->
  Bs4.find "code" attribute_td = Some name_code ->
  visibility vis_td = OK (ro, rq) ->
  Bs4.find "code" type_td = Some type_code ->
  List.length (Bs4.strings type_code) <> 1 ->
  Bs4.strings type_code <> ["Array["; "Object"; "]"] ->
  let diagnostic := LogError "Couldn't make sense of " (ArgTag type_td) in
  let log' := log ++ [diagnostic] in
  let entry :=
    {| prop_type := None;
       prop_description := Bs4.get_text desc_td;
       prop_items := None;
       prop_format := None |} in
  let st' := row_done st (Bs4.string_ name_code) rq entry in
  resolve_type type_td log = (OK (None, None, None), log') /\
  parse_row tr st log = (OK st', log') /\
  st_properties st' !! Bs4.string_ name_code = Some entry /\
  value_of_property entry
  = VDict [ (VStr "type", VNone);
            (VStr "description", VStr (Bs4.get_text desc_td)) ] /\
  (forall rest,
     for_each parse_row (tr :: rest) st log = for_each parse_row rest st' log') /\
  forall table tbody pre post,
    Bs4.find "tbody" table = Some tbody ->
    Bs4.find_all "tr" tbody = pre ++ tr :: post ->
    Forall row_returns (pre ++ post) ->
    row_kept table pre post (Bs4.string_ name_code) entry [diagnostic].
Proof.
  intros Hrow Hname Hvis Hcode Hlen Hpat diagnostic log' entry st'.
  assert (Hres : forall l, resolve_type type_td l
                 = (OK (None, None, None), l ++ [diagnostic]))
    by (intros l; by apply (resolve_type_other _ _ l Hcode)).
  assert (Hparse : forall s l,
    parse_row tr s l
    = (OK (row_done s (Bs4.string_ name_code) rq entry), l ++ [diagnostic])).
  { intros s l.
    exact (parse_row_resolved _ _ _ _ _ _ _ _ _ _ _ s _ _
             Hrow Hname Hvis (Hres l)). }
  split; [apply Hres|]. split; [apply Hparse|].
  split; [apply lookup_insert_eq|]. split; [reflexivity|]. split.
  - intros rest. apply for_each_step. apply Hparse.
  - intros table tbody pre post Htbody Hrows Hall.
    by eapply row_kept_intro.
Qed.

End Degraded.

Lemma sample_rows_return :
  row_returns id_row /\ row_returns money_row /\ row_returns lines_row.
Proof.
  repeat split.
  - eexists. split; [reflexivity|]. split; [|reflexivity].
    unfold well_formed_entry. simpl. split; [tauto|]. by split.
  - eexists. split; [reflexivity|]. split; [|reflexivity].
    unfold well_formed_entry. simpl. split; [tauto|]. split; [done|].
    by intros f [= <-].
  - eexists. split; [reflexivity|]. split; [|reflexivity].
    unfold well_formed_entry. simpl. split; [|done]. by exists "Line".
Qed.

Lemma unknown_token_row_witness :
  row_kept money_table [id_row] [lines_row] (Some "total")
    {| prop_type := Some "string"; prop_description := "Total";
       prop_items := None; prop_format := Some "money" |}
    [LogError "Unknow type " (ArgStr "Money")].
Proof.
  refine (proj2 (proj2 (proj2 (proj2
    (unknown_token_row money_row _ _ _ _ _ _ "Money" false false
       no_locals [] eq_refl eq_refl eq_refl eq_refl eq_refl _))))
    money_table (Bs4.Tag "tbody" [] [id_row; money_row; lines_row])
    [id_row] [lines_row] eq_refl eq_refl _).
  - by vm_compute.
  - destruct sample_rows_return as (Hid & _ & Hlines).
    by repeat constructor.
Defined.

Lemma unresolved_type_row_witness :
  row_kept odd_table [id_row] [money_row] (Some "tags")
    {| prop_type := None; prop_description := "Tags";
       prop_items := None; prop_format := None |}
    [LogError "Couldn't make sense of "
       (ArgTag (td [code [text "Array["; text "String"]]))].
Proof.
  refine (proj2 (proj2 (proj2 (proj2 (proj2
    (unresolved_type_row odd_row _ _ _ _ _ _ false false no_locals []
       eq_refl eq_refl eq_refl eq_refl _ _)))))
    odd_table (Bs4.Tag "tbody" [] [id_row; odd_row; money_row])
    [id_row] [money_row] eq_refl eq_refl _).
  - simpl. lia.
  - discriminate.
  - destruct sample_rows_return as (Hid & Hmoney & _).
    by repeat constructor.
Defined.

(** The two sample pages lead to the two sample tables, and the page
    parser returns their schemas with the row's record in its log. *)
Example money_page_located :
  page_table money_page = Some ("Expense report", money_table).
Proof. reflexivity. Qed.

Example odd_page_located :
  page_table odd_page = Some ("tag-list", odd_table).
Proof. reflexivity. Qed.

Example money_page_parsed :
  match parse_page money_page "/api/v3/expenses" [] with
  | (OK (Some [(name, sch)]), plog) =>
      name = "ExpenseReport.Attributes" /\
      obj_type sch = "object" /\
      required sch = Some [Some "id"] /\
      properties sch !! Some "total"
      = Some {| prop_type := Some "string"; prop_description := "Total";
                prop_items := None; prop_format := Some "money" |} /\
      In (Rec (LogError "Unknow type " (ArgStr "Money"))) plog
  | _ => False
  end.
Proof. vm_compute. repeat split. tauto. Qed.

Example odd_page_parsed :
  match parse_page odd_page "/api/v3/tags" [] with
  | (OK (Some [(name, sch)]), plog) =>
      name = "tagList.Attributes" /\
      obj_type sch = "object" /\
      required sch = Some [Some "id"] /\
      properties sch !! Some "tags"
      = Some {| prop_type := None; prop_description := "Tags";
                prop_items := None; prop_format := None |} /\
      In (Rec (LogError "Couldn't make sense of "
                 (ArgTag (td [code [text "Array["; text "String"]])))) plog
  | _ => False
  end.
Proof. vm_compute. repeat split. tauto. Qed.

(** ** Names of ASCII headings *)

Section AsciiNames.

Context {builtins : Builtins}.

(** At an ASCII character only that character itself can be the
    whitespace that starts. *)
Lemma space_at_ascii c (r : string) :
  (N_of_ascii c <? 128)%N = true ->
  PyStr.space_at (String c r)
  = if ascii_space c then Some (String c EmptyString) else None.
Proof.
  destruct c as [[] [] [] [] [] [] [] []]; intros Hc;
    first [discriminate Hc | reflexivity].
Qed.

Lemma plain_clean c (r : string) :
  is_plain c = true ->
  starts_clean (String c r) = true /\ is_mark c = false
  /\ (N_of_ascii c <? 128)%N = true /\ ascii_space c = false.
Proof.
  destruct c as [[] [] [] [] [] [] [] []]; intros Hc;
    first [discriminate Hc | by repeat split].
Qed.

Lemma plain_case c :
  is_plain (PyStr.upper_char c) = is_plain c /\
  is_plain (PyStr.lower_char c) = is_plain c.
Proof. destruct c as [[] [] [] [] [] [] [] []]; by vm_compute. Qed.

Lemma plain_break_free (w : string) :
  all_chars is_plain w = true -> break_free w = true /\ PyStr.is_ascii w = true.
Proof.
  induction w as [|c w IH]; [done|].
  simpl. intros Hw. apply andb_true_iff in Hw as [Hc Hw].
  destruct (plain_clean c w Hc) as (Hclean & Hmark & Hascii & _).
  destruct (IH Hw) as [IH1 IH2].
  change (starts_clean (String c w)) with (starts_clean (String c w)) in Hclean.
  split.
  - rewrite Hmark. cbn [negb andb]. by rewrite Hclean, IH1.
  - by rewrite Hascii, IH2.
Qed.

Lemma all_chars_append p (s t : string) :
  all_chars p (s +:+ t) = all_chars p s && all_chars p t.
Proof.
  induction s as [|c s IH]; [done|].
  rewrite append_cons. simpl. by rewrite IH, andb_assoc.
Qed.

Lemma all_chars_join p (l : list string) :
  Forall (fun w => all_chars p w = true) l ->
  all_chars p (PyStr.join l) = true.
Proof.
  induction 1 as [|w l Hw _ IH]; [done|].
  simpl. by rewrite all_chars_append, Hw, IH.
Qed.

(** The pieces cut from ASCII text without hyphen and underscore are not
    empty and made of plain characters. *)
Lemma split_from_plain (s : string) : forall cur,
  PyStr.is_ascii s = true ->
  all_chars (fun c => negb (is_mark c)) s = true ->
  all_chars is_plain cur = true ->
  Forall (fun w => PyStr.truthy w = true /\ all_chars is_plain w = true)
    (PyStr.split_from 0 cur s).
Proof.
  induction s as [|c s IH]; intros cur Hs Hm Hcur.
  - simpl. destruct cur; by repeat constructor.
  - simpl in Hs, Hm. apply andb_true_iff in Hs as [Hc Hs].
    apply andb_true_iff in Hm as [Hcm Hm].
    cbn [PyStr.split_from]. rewrite (space_at_ascii c s Hc).
    destruct (ascii_space c) eqn:Hsp.
    + cbn [String.length Nat.sub]. apply Forall_app. split.
      * destruct cur; by repeat constructor.
      * by apply IH.
    + apply IH; [done|done|].
      rewrite all_chars_append, Hcur. simpl.
      unfold is_plain. by rewrite Hc, Hsp, Hcm.
Qed.

Lemma normalize_ascii (s : string) :
  PyStr.is_ascii s = true ->
  PyStr.is_ascii (normalize s) = true /\
  all_chars (fun c => negb (is_mark c)) (normalize s) = true.
Proof.
  induction s as [|c s IH]; [done|].
  intros Hs. cbn [PyStr.is_ascii] in Hs. apply andb_true_iff in Hs as [Hc Hs].
  destruct (IH Hs) as [IH1 IH2]. rewrite normalize_cons.
  cbn [PyStr.is_ascii all_chars]. rewrite IH1, IH2.
  destruct (is_mark c) eqn:Hm; [done|]. by rewrite Hc, Hm.
Qed.

Lemma capitalize_plain (w : string) :
  ascii_case_mapping ->
  all_chars is_plain w = true ->
  all_chars is_plain (str_capitalize w) = true.
Proof.
  intros Hmap Hw. destruct (plain_break_free w Hw) as [_ Hascii].
  destruct (Hmap w Hascii) as [_ ->].
  destruct w as [|c w]; [done|].
  simpl in *. apply andb_true_iff in Hw as [Hc Hw].
  rewrite (proj1 (plain_case c)), Hc. simpl.
  clear c Hc Hascii. unfold PyStr.ascii_lower.
  induction w as [|c w IH]; [done|].
  simpl in *. apply andb_true_iff in Hw as [Hc Hw].
  by rewrite (proj2 (plain_case c)), Hc, IH.
Qed.

Lemma to_camel_case_plain text r :
  ascii_case_mapping ->
  PyStr.is_ascii text = true ->
  to_camel_case text = OK r ->
  all_chars is_plain r = true /\ (r = EmptyString <-> text = EmptyString).
Proof.
  intros Hmap Hascii Hrun.
  destruct text as [|c t].
  { injection Hrun as <-. by split. }
  rewrite to_camel_case_nonempty in Hrun by done.
  destruct (normalize_ascii _ Hascii) as [Hna Hnm].
  pose proof (split_from_plain _ EmptyString Hna Hnm eq_refl) as Hpieces.
  fold (PyStr.split (normalize (String c t))) in Hpieces.
  destruct (PyStr.split (normalize (String c t))) as [|s0 rest]; [done|].
  injection Hrun as <-.
  apply Forall_cons in Hpieces as [[Hne H0] Hrest]. split.
  - rewrite all_chars_append, H0. simpl.
    apply all_chars_join. apply Forall_map.
    eapply Forall_impl; [exact Hrest|].
    intros w [_ Hw]. by apply capitalize_plain.
  - split; [|done]. by destruct s0.
Qed.

(** X1: for an ASCII heading, the builtins being the ASCII case mapping
    on ASCII text, a name returned by [to_camel_case] is made of ASCII
    characters that are neither whitespace nor hyphen nor underscore, and
    it is empty only for the empty heading. *)
Theorem to_camel_case_no_breaks text r :
  ascii_case_mapping ->
  PyStr.is_ascii text = true ->
  to_camel_case text = OK r ->
  all_chars is_plain r = true /\
  break_free r = true /\
  (r = EmptyString <-> text = EmptyString).
Proof.
  intros Hmap Hascii Hrun.
  destruct (to_camel_case_plain _ _ Hmap Hascii Hrun) as [Hplain Hempty].
  split; [done|]. split; [|done]. by apply plain_break_free.
Qed.

(** X2: for an ASCII heading, the builtins being the ASCII case mapping
    on ASCII text, [to_camel_case] is idempotent: applied to a name it
    returned, it returns that name. *)
Theorem to_camel_case_idempotent text r :
  ascii_case_mapping ->
  PyStr.is_ascii text = true ->
  to_camel_case text = OK r ->
  to_camel_case r = OK r.
Proof.
  intros Hmap Hascii Hrun.
  destruct (to_camel_case_plain _ _ Hmap Hascii Hrun) as [Hplain _].
  destruct (plain_break_free _ Hplain) as [Hfree _].
  destruct r as [|c r]; [done|].
  rewrite to_camel_case_nonempty by done.
  pose proof (split_phrase EmptyString (String c r) [] EmptyString eq_refl)
    as Hsplit.
  unfold phrase in Hsplit. simpl PyStr.join in Hsplit.
  rewrite append_nil_l, !append_nil_r in Hsplit.
  rewrite Hsplit; [|by unfold is_word; rewrite Hfree|done|done].
  simpl. by rewrite append_nil_r.
Qed.

End AsciiNames.

Lemma to_camel_case_no_breaks_witness :
  all_chars is_plain "bankAccountsOfSubject" = true /\
  break_free "bankAccountsOfSubject" = true /\
  ("bankAccountsOfSubject" = EmptyString <->
   " bank_accounts-of  SUBJECT " = EmptyString).
Proof.
  exact (to_camel_case_no_breaks " bank_accounts-of  SUBJECT "
           "bankAccountsOfSubject" ascii_builtins_mapping eq_refl eq_refl).
Defined.

Lemma to_camel_case_idempotent_witness :
  to_camel_case "invoiceLineItem" = OK "invoiceLineItem".
Proof.
  exact (to_camel_case_idempotent "invoice_line item" "invoiceLineItem"
           ascii_builtins_mapping eq_refl eq_refl).
Defined.
